(** * Ournet/descopero: the content facade [src/content/ContentApi.ts]

    A shallow embedding of the normalization layer ([toArticles], [toArticle],
    [toCategories], [toCategory], [toImage]) and of the cached fetch facade
    ([article], [articles], [category], [mainCategories], ...) of the
    [ContentApi] class, followed by the properties its specification states.

    The code is dynamically typed at run time: raw payloads are JSON trees and
    every guard is a truthiness test.  The embedding therefore works on
    JavaScript values, with property reads that raise [TypeError] on
    [undefined] and [null], and promises as results that are either resolved
    or rejected. *)

From stdpp Require Import base strings list gmap.
From Stdlib Require Import ZArith.

Local Open Scope Z_scope.
Local Open Scope string_scope.

(** ** JavaScript values *)

Module JS.

#[local] Set Warnings "-register-all".

(** Numbers are the integer-valued doubles, held as integers ([to_double]
    below rounds a sum as the doubles do); [NaN], infinities and fractions
    do not occur in the properties stated below.  An object is the list of
    its own properties in insertion order; a property can be present and
    hold [undefined]. *)
Inductive value : Type :=
| VUndefined
| VNull
| VBool (b : bool)
| VNum (n : Z)
| VStr (s : string)
| VArr (items : list value)
| VObj (props : list (string * value)).

Inductive error : Type :=
| TypeError
| Error (message : string).

(** The outcome of an expression that may throw, and of a promise: resolved
    with a value or rejected with an error. *)
Inductive result (A : Type) : Type :=
| Ok (a : A)
| Err (e : error).
Arguments Ok {A} a.
Arguments Err {A} e.

#[global] Instance result_ret : MRet result := @Ok.
#[global] Instance result_bind : MBind result := λ A B f m,
  match m with Ok a => f a | Err e => Err e end.
#[global] Instance result_fmap : FMap result := λ A B f m,
  match m with Ok a => Ok (f a) | Err e => Err e end.

(** [!v] is [negb (truthy v)]. *)
Definition truthy (v : value) : bool :=
  match v with
  | VUndefined | VNull => false
  | VBool b => b
  | VNum n => negb (Z.eqb n 0)
  | VStr s => negb (String.eqb s "")
  | VArr _ | VObj _ => true
  end.

Definition nullish (v : value) : bool :=
  match v with VUndefined | VNull => true | _ => false end.

(** [a || b] where evaluating [b] cannot throw. *)
Definition or_ (a b : value) : value := if truthy a then a else b.

(** Own properties. *)
Fixpoint own (k : string) (props : list (string * value)) : option value :=
  match props with
  | [] => None
  | (k', v) :: rest => if String.eqb k k' then Some v else own k rest
  end.

(** [o[k] = v] on own properties: overwrite in place or append. *)
Fixpoint assign (k : string) (v : value) (props : list (string * value))
  : list (string * value) :=
  match props with
  | [] => [(k, v)]
  | (k', v') :: rest =>
      if String.eqb k k' then (k, v) :: rest else (k', v') :: assign k v rest
  end.

(** The property read [v.k].  Own properties of objects and [length] of
    arrays are modelled.  Any other read from a value that is not nullish
    gives [undefined]: the code reads no inherited property, and the length
    of no string. *)
Definition get (v : value) (k : string) : result value :=
  match v with
  | VUndefined | VNull => Err TypeError
  | VObj props => Ok (default VUndefined (own k props))
  | VArr items =>
      Ok (if String.eqb k "length" then VNum (Z.of_nat (length items))
          else VUndefined)
  | _ => Ok VUndefined
  end.

(** [v.k1.k2...]: each step reads from the result of the one before. *)
Fixpoint path (v : value) (ks : list string) : result value :=
  match ks with
  | [] => Ok v
  | k :: ks => w ← get v k; path w ks
  end.

(** [k in o] restricted to own properties. *)
Definition has (v : value) (k : string) : bool :=
  match v with VObj props => bool_decide (is_Some (own k props)) | _ => false end.

(** [data.k = x] where [data] is an object. *)
Definition set (data : value) (k : string) (x : value) : value :=
  match data with VObj props => VObj (assign k x props) | _ => data end.

(** [a[i]] *)
Definition index (a : value) (i : nat) : result value :=
  match a with
  | VUndefined | VNull => Err TypeError
  | VArr items => Ok (default VUndefined (items !! i))
  | _ => Ok VUndefined
  end.

(** [a.map(f)]; a value that is not an array has no [map] to call. *)
Definition array_map (f : value → result value) (a : value) : result value :=
  match a with
  | VArr items => VArr <$> mapM f items
  | _ => Err TypeError
  end.

(** [a.filter(f)]: keeps the items at which the callback is truthy. *)
Fixpoint filterM (f : value → result value) (items : list value)
  : result (list value) :=
  match items with
  | [] => Ok []
  | x :: rest =>
      keep ← f x;
      kept ← filterM f rest;
      Ok (if truthy keep then x :: kept else kept)
  end.

Definition array_filter (f : value → result value) (a : value) : result value :=
  match a with
  | VArr items => VArr <$> filterM f items
  | _ => Err TypeError
  end.

(** [a.slice(0, stop)]: a negative [stop] counts from the end. *)
Definition slice0 (stop : Z) (items : list value) : list value :=
  let len := Z.of_nat (length items) in
  let k := if Z.ltb stop 0 then Z.max (len + stop) 0 else Z.min stop len in
  take (Z.to_nat k) items.

Definition array_slice0 (stop : Z) (a : value) : result value :=
  match a with
  | VArr items => Ok (VArr (slice0 stop items))
  | _ => Err TypeError
  end.

(** The double nearest to an integer, ties to the even significand: every
    integer below [2^53] in magnitude is a double, and from there on the
    doubles are the multiples of [2^(e-52)] for a magnitude in
    [[2^e, 2^(e+1))]. *)
Definition to_double (z : Z) : Z :=
  let m := Z.abs z in
  if Z.ltb m 9007199254740992 then z else
  let ulp := Z.pow 2 (Z.log2 m - 52) in
  let q := Z.div m ulp in
  let r := Z.modulo m ulp in
  let q' := if Z.ltb (2 * r) ulp then q
            else if Z.ltb ulp (2 * r) then q + 1
            else if Z.even q then q else q + 1 in
  Z.sgn z * (q' * ulp).

(** [a + b] on numbers: the exact sum, rounded to a double. *)
Definition number_add (a b : Z) : Z := to_double (a + b).

(** [v === s] for a string literal [s]. *)
Definition is_str (v : value) (s : string) : bool :=
  match v with VStr s' => String.eqb s' s | _ => false end.

(** Nesting depth, the measure along which normalization descends. *)
Fixpoint depth (v : value) : nat :=
  match v with
  | VArr items => S (foldr (λ x d, Nat.max (depth x) d) 0%nat items)
  | VObj props => S (foldr (λ p d, Nat.max (depth p.2) d) 0%nat props)
  | _ => 0%nat
  end.

End JS.
Export JS.

(** ** Normalization layer *)

(** The body of [toCategory], with its recursive call as a parameter. *)
Definition toCategory_body (toCategory : value → result value) (entity : value)
  : result value :=
  if negb (truthy entity) then Ok VNull else
  id ← get entity "id";
  let data := VObj [("id", id)] in
  fields ← get entity "fields";
  if truthy fields then
    name ← path entity ["fields"; "name"];
    let data := set data "name" name in
    slug ← path entity ["fields"; "slug"];
    let data := set data "slug" slug in
    parent ← path entity ["fields"; "parent"];
    if truthy parent then
      parent' ← toCategory parent;
      Ok (set data "parent" parent')
    else Ok data
  else Ok data.

(** The recursion descends into [entity.fields.parent], two levels below
    [entity], so it is tied along the nesting depth of the payload;
    [toCategory_unfold] below is the equation of the source,
    [toCategory entity = toCategory_body toCategory entity]. *)
Fixpoint toCategory_upto (n : nat) (entity : value) : result value :=
  match n with
  | O => Ok VNull
  | S n => toCategory_body (toCategory_upto n) entity
  end.

Definition toCategory (entity : value) : result value :=
  toCategory_upto (S (depth entity)) entity.

Definition toImage (entity : value) : result value :=
  if negb (truthy entity) then Ok VNull else
  id ← get entity "id";
  let data := VObj [("id", id)] in
  fields ← get entity "fields";
  if truthy fields then
    file ← path entity ["fields"; "file"];
    if truthy file then
      url ← path entity ["fields"; "file"; "url"];
      let data := if truthy url then set data "url" url else data in
      contentType ← path entity ["fields"; "file"; "contentType"];
      let data :=
        if truthy contentType then set data "contentType" contentType else data in
      details ← path entity ["fields"; "file"; "details"];
      if truthy details then
        size ← path entity ["fields"; "file"; "details"; "size"];
        let data := set data "size" size in
        image ← path entity ["fields"; "file"; "details"; "image"];
        if truthy image then
          width ← path entity ["fields"; "file"; "details"; "image"; "width"];
          let data := set data "width" width in
          height ← path entity ["fields"; "file"; "details"; "image"; "height"];
          Ok (set data "height" height)
        else Ok data
      else Ok data
    else Ok data
  else Ok data.

Definition toArticle (entity : value) : result value :=
  if negb (truthy entity) then Ok VNull else
  id ← get entity "id";
  createdAt ← get entity "createdAt";
  updatedAt ← get entity "updatedAt";
  title ← path entity ["fields"; "title"];
  slug ← path entity ["fields"; "slug"];
  summary ← path entity ["fields"; "summary"];
  countViews ← path entity ["fields"; "countViews"];
  let data := VObj [("id", id); ("createdAt", createdAt);
                    ("updatedAt", updatedAt); ("title", title); ("slug", slug);
                    ("summary", summary);
                    ("countViews", or_ countViews (VNum 1))] in
  text ← path entity ["fields"; "text"];
  let data := if truthy text then set data "text" text else data in
  category ← path entity ["fields"; "category"];
  data ← (if truthy category
          then category' ← toCategory category; Ok (set data "category" category')
          else Ok data);
  image ← path entity ["fields"; "image"];
  if truthy image
  then image' ← toImage image; Ok (set data "image" image')
  else Ok data.

Definition toArticles (collection : value) : result value :=
  let data := VObj [("total", VNum 0); ("items", VArr [])] in
  if negb (truthy collection) then Ok data else
  items ← get collection "items";
  if negb (truthy items) then
    total ← get collection "total";
    total0 ← get data "total";
    Ok (set data "total" (or_ total total0))
  else
    items' ← array_map toArticle items;
    Ok (set data "items" items').

Definition toCategories (collection : value) : result value :=
  let data := VObj [("total", VNum 0); ("items", VArr [])] in
  if negb (truthy collection) then Ok data else
  items ← get collection "items";
  if negb (truthy items) then
    total ← get collection "total";
    total0 ← get data "total";
    Ok (set data "total" (or_ total total0))
  else
    items' ← array_map toCategory items;
    Ok (set data "items" items').

(** ** Cached fetch facade *)

Module ContentTypes.
Definition CATEGORY : string := "category".
Definition FILE : string := "file".
Definition ARTICLE : string := "article".
End ContentTypes.

Definition invalid_filter : error := Error "parameter filter is invalid".

(** The projection of list queries, as the literal of the source. *)
Definition list_select : string :=
  "sys.id,sys.createdAt,sys.updatedAt,fields.title,fields.slug,fields.summary,fields.image,fields.category".

(** A promise of the facade.  The only asynchronous step is the call of
    [getCacheEntries], inherited from [CacheContentfulApi], which is not part
    of this file: a promise is either settled, or waits for the raw collection
    that the collaborator answers to a content type and a query. *)
Inductive promise : Type :=
| Settled (outcome : result value)
| GetCacheEntries (contentType : string) (query : gmap string value)
    (continue : value → promise).

Definition resolve (v : value) : promise := Settled (Ok v).
Definition reject (e : error) : promise := Settled (Err e).

(** [p.then(f)] for a synchronous callback [f]; a throw in [f] rejects. *)
Fixpoint then_ (p : promise) (f : value → result value) : promise :=
  match p with
  | Settled (Ok v) => Settled (f v)
  | Settled (Err e) => Settled (Err e)
  | GetCacheEntries contentType query continue =>
      GetCacheEntries contentType query (λ raw, then_ (continue raw) f)
  end.

(** A method body that throws before it returns its promise fails as well. *)
Definition sync (body : result promise) : promise :=
  match body with Ok p => p | Err e => Settled (Err e) end.

Definition getCacheEntries (contentType : string) (query : gmap string value)
  : promise :=
  GetCacheEntries contentType query resolve.

(** What a promise asks of the collaborator, and its outcome once the
    collaborator's answers are known. *)
Definition requested (p : promise) : option (string * gmap string value) :=
  match p with
  | Settled _ => None
  | GetCacheEntries contentType query _ => Some (contentType, query)
  end.

Fixpoint run (upstream : string → gmap string value → result value)
  (p : promise) : result value :=
  match p with
  | Settled outcome => outcome
  | GetCacheEntries contentType query continue =>
      match upstream contentType query with
      | Ok raw => run upstream (continue raw)
      | Err e => Err e
      end
  end.

Definition getArticles (query : gmap string value) : promise :=
  let query := <["content_type" := VStr ContentTypes.ARTICLE]> query in
  then_ (getCacheEntries ContentTypes.ARTICLE query) toArticles.

Definition getCategories (query : gmap string value) : promise :=
  let query := <["content_type" := VStr ContentTypes.CATEGORY]> query in
  then_ (getCacheEntries ContentTypes.CATEGORY query) toCategories.

Definition getArticlesList (query : gmap string value) : promise :=
  then_ (getArticles query) (λ result, get result "items").

Definition getCategoriesList (query : gmap string value) : promise :=
  then_ (getCategories query) (λ result, get result "items").

(** [!filter || !filter.id && !filter.slug], left to right. *)
Definition invalid_item_filter (filter : value) : result bool :=
  if negb (truthy filter) then Ok true else
  id ← get filter "id";
  if negb (truthy id) then
    slug ← get filter "slug";
    Ok (negb (truthy slug))
  else Ok false.

(** [collection.items.length && collection.items[0] || null] *)
Definition first_or_null (collection : value) : result value :=
  len ← path collection ["items"; "length"];
  first ← (if truthy len
           then items ← get collection "items"; index items 0
           else Ok len);
  Ok (or_ first VNull).

Definition article (filter : value) : promise :=
  sync (
    invalid ← invalid_item_filter filter;
    if invalid : bool then Ok (reject invalid_filter) else
    let query : gmap string value :=
      {[ "include" := VNum 1; "limit" := VNum 1 ]} in
    slug ← get filter "slug";
    query ← (if truthy slug
             then Ok (<["fields.slug" := slug]> query)
             else id ← get filter "id"; Ok (<["sys.id" := id]> query));
    Ok (then_ (getArticles query) first_or_null)).

Definition articles (filter : value) : promise :=
  sync (
    if negb (truthy filter) then Ok (reject invalid_filter) else
    limit ← get filter "limit";
    let query : gmap string value := {[ "limit" := limit ]} in
    let query := <["select" := VStr list_select]> query in
    order ← get filter "order";
    let query :=
      if is_str order "createdAt" then
        <["order" := VStr "sys.createdAt"]> query
      else if is_str order "countViews" then
        <["order" := VStr "fields.countViews"]> query
      else if is_str order "-countViews" then
        <["order" := VStr "-fields.countViews"]> query
      else <["order" := VStr "-sys.createdAt"]> query in
    categoryId ← get filter "categoryId";
    let query :=
      if truthy categoryId
      then <["fields.category.sys.id" := categoryId]> query else query in
    categorySlug ← get filter "categorySlug";
    let query :=
      if truthy categorySlug
      then <["fields.category.fields.slug" := categorySlug]> query
      else query in
    Ok (getArticles query)).

Definition articlesList (filter : value) : promise :=
  then_ (articles filter) (λ result, get result "items").

Definition category (filter : value) : promise :=
  sync (
    invalid ← invalid_item_filter filter;
    if invalid : bool then Ok (reject invalid_filter) else
    let query : gmap string value :=
      {[ "include" := VNum 1; "limit" := VNum 1 ]} in
    slug ← get filter "slug";
    query ← (if truthy slug
             then Ok (<["fields.slug" := slug]> query)
             else id ← get filter "id"; Ok (<["sys.id" := id]> query));
    Ok (then_ (getCategories query) first_or_null)).

(** [item.parent && item.parent.name], the callback of the filter. *)
Definition has_named_parent (item : value) : result value :=
  parent ← get item "parent";
  if truthy parent then path item ["parent"; "name"] else Ok parent.

Definition mainCategories (limit : Z) : promise :=
  then_ (getCategoriesList
           {[ "order" := VStr "fields.slug";
              "limit" := VNum (number_add limit 10) ]})
    (λ list, kept ← array_filter has_named_parent list;
             array_slice0 limit kept).

Definition rootCategories : promise :=
  getCategoriesList
    {[ "order" := VStr "fields.slug"; "fields.parent" := VNull;
       "limit" := VNum 10 ]}.

Definition allCategories : promise :=
  getCategories {[ "order" := VStr "fields.slug"; "limit" := VNum 100 ]}.

(** ** Vocabulary of the specification *)

(** [v.k] where it cannot throw. *)
Definition read (v : value) (k : string) : value :=
  match get v k with Ok w => w | Err _ => VUndefined end.

(** [{total, items}], the shape of an [EntityCollection]. *)
Definition collection_of (total : Z) (items : list value) : value :=
  VObj [("total", VNum total); ("items", VArr items)].

(** The invariant of an [EntityCollection]: [items.length <= total]. *)
Definition length_within_total (collection : value) : Prop :=
  ∃ total items,
    collection = collection_of total items ∧ (Z.of_nat (length items) ≤ total)%Z.

(** An expression that throws nothing but a [TypeError]. *)
Definition throws_only_TypeError {A} (r : result A) : Prop :=
  ∀ e, r = Err e → e = TypeError.

(** The fields named by the projection of list queries. *)
Definition list_projection : list string :=
  ["sys.id"; "sys.createdAt"; "sys.updatedAt"; "fields.title"; "fields.slug";
   "fields.summary"; "fields.image"; "fields.category"].

(** A fully formed [CategoryEntity]: an object that carries [id] and whose
    [parent], when it has one, is a [CategoryEntity] again. *)
Inductive CategoryEntity : value → Prop :=
| CategoryEntity_intro props :
    is_Some (own "id" props) →
    (∀ parent, own "parent" props = Some parent → CategoryEntity parent) →
    CategoryEntity (VObj props).

(** The items that the callback of [mainCategories] keeps. *)
Definition keeps (item : value) : bool :=
  match has_named_parent item with Ok v => truthy v | Err _ => false end.

(** What the specification asks of a main category, in its own words: the
    [parent] is present, an object, and has a non-empty [name].  Nothing of
    the callback of [mainCategories] enters this definition. *)
Definition spec_named_parent (category : value) : bool :=
  match category with
  | VObj props =>
      match own "parent" props with
      | Some (VObj parent) =>
          match own "name" parent with
          | Some (VUndefined | VNull) | None => false
          | Some (VBool b) => b
          | Some (VNum n) => negb (Z.eqb n 0)
          | Some (VStr name) => negb (String.eqb name "")
          | Some (VArr _ | VObj _) => true
          end
      | _ => false
      end
  | _ => false
  end.

(** A raw category nested [n] parents deep, and its normal form. *)
Fixpoint raw_chain (n : nat) : value :=
  match n with
  | O => VObj [("id", VStr "c"); ("fields", VObj [("name", VStr "C")])]
  | S n => VObj [("id", VStr "c");
                 ("fields", VObj [("name", VStr "C"); ("parent", raw_chain n)])]
  end.

Fixpoint chain (n : nat) : value :=
  match n with
  | O => VObj [("id", VStr "c"); ("name", VStr "C"); ("slug", VUndefined)]
  | S n => VObj [("id", VStr "c"); ("name", VStr "C"); ("slug", VUndefined);
                 ("parent", chain n)]
  end.

(** The own keys of an object, in insertion order. *)
Definition keys (v : value) : list string :=
  match v with VObj props => props.*1 | _ => [] end.

Definition is_array (v : value) : bool :=
  match v with VArr _ => true | _ => false end.

(** A promise that asks the collaborator at most once: whatever the answer,
    it is settled afterwards. *)
Definition asks_once (p : promise) : Prop :=
  match p with
  | Settled _ => True
  | GetCacheEntries _ _ continue => ∀ raw, ∃ outcome, continue raw = Settled outcome
  end.

(** A promise whose request, if it makes one, is for the given content type
    and carries that content type in the query as well. *)
Definition asks_for (contentType : string) (p : promise) : Prop :=
  ∀ contentType' query,
    requested p = Some (contentType', query) →
    contentType' = contentType ∧
    query !! "content_type" = Some (VStr contentType).

(** The backend sort keys. *)
Definition sort_keys : list value :=
  [VStr "sys.createdAt"; VStr "fields.countViews"; VStr "-fields.countViews";
   VStr "-sys.createdAt"].

(** ** Property reads and the nesting depth *)

Lemma own_depth k props v :
  own k props = Some v →
  (depth v ≤ foldr (λ p d, Nat.max (depth p.2) d) 0 props)%nat.
Proof.
  induction props as [|[k' v'] rest IH]; simpl; [done|].
  destruct (String.eqb k k').
  - intros [= ->]. lia.
  - intros H. specialize (IH H). lia.
Qed.

Lemma get_depth_le v k w : get v k = Ok w → (depth w ≤ depth v)%nat.
Proof.
  destruct v; simpl; try done; intros [= <-]; simpl; try lia.
  - destruct (String.eqb k "length"); simpl; lia.
  - destruct (own k props) eqn:Hk; simpl; [|lia].
    apply own_depth in Hk. lia.
Qed.

Lemma get_depth_lt v k w :
  get v k = Ok w → truthy w = true → (depth w < depth v)%nat.
Proof.
  destruct v; simpl; try done; intros [= <-]; simpl; try done.
  - destruct (String.eqb k "length"); simpl; [lia|done].
  - destruct (own k props) eqn:Hk; simpl; [|done].
    apply own_depth in Hk. lia.
Qed.

Lemma get_total v k : nullish v = false → ∃ w, get v k = Ok w.
Proof. destruct v; simpl; try done; eauto. Qed.

Lemma truthy_not_nullish v : truthy v = true → nullish v = false.
Proof. by destruct v. Qed.

(** ** [toCategory]: the equation of the source *)

Lemma toCategory_body_ext f g entity :
  (∀ p, (depth p < depth entity)%nat → f p = g p) →
  toCategory_body f entity = toCategory_body g entity.
Proof.
  intros Hfg. unfold toCategory_body, path.
  destruct (truthy entity); simpl; [|done].
  destruct (get entity "id"); simpl; [|done].
  destruct (get entity "fields") as [fields|] eqn:Hfields; simpl; [|done].
  destruct (truthy fields); simpl; [|done].
  destruct (get fields "name"); simpl; [|done].
  destruct (get fields "slug"); simpl; [|done].
  destruct (get fields "parent") as [parent|] eqn:Hparent; simpl; [|done].
  destruct (truthy parent) eqn:Ht; [|done].
  rewrite Hfg; [done|].
  apply get_depth_le in Hfields. apply get_depth_lt in Hparent; [lia|done].
Qed.

Lemma toCategory_upto_stable n m entity :
  (depth entity < n)%nat → (depth entity < m)%nat →
  toCategory_upto n entity = toCategory_upto m entity.
Proof.
  revert m entity. induction n as [|n IH]; intros [|m] entity Hn Hm; try lia.
  simpl. apply toCategory_body_ext. intros p Hp. apply IH; lia.
Qed.

Lemma toCategory_unfold entity :
  toCategory entity = toCategory_body toCategory entity.
Proof.
  unfold toCategory at 1. simpl. apply toCategory_body_ext.
  intros p Hp. apply toCategory_upto_stable; lia.
Qed.

(** ** Collections *)

Lemma mapM_Ok (f : value → result value) items items' :
  mapM f items = Ok items' ↔ Forall2 (λ x y, f x = Ok y) items items'.
Proof.
  revert items'. induction items as [|x items IH]; intros items'; simpl.
  - split; [intros [= <-]; constructor | by inversion 1].
  - split.
    + destruct (f x) as [y|] eqn:Hx; simpl; [|done].
      destruct (mapM f items) as [ys|] eqn:Hxs; simpl; [|done].
      intros [= <-]. constructor; [done|]. by apply IH.
    + inversion 1 as [|? y ? ys Hx Hxs]; subst. rewrite Hx. simpl.
      apply IH in Hxs. by rewrite Hxs.
Qed.

Lemma toArticles_absent collection :
  truthy collection = false → toArticles collection = Ok (collection_of 0 []).
Proof. intros H. unfold toArticles. by rewrite H. Qed.

Lemma toCategories_absent collection :
  truthy collection = false → toCategories collection = Ok (collection_of 0 []).
Proof. intros H. unfold toCategories. by rewrite H. Qed.

Lemma toArticles_no_items props total :
  own "items" props = None → own "total" props = Some (VNum total) →
  toArticles (VObj props) = Ok (collection_of total []).
Proof.
  intros Hitems Htotal. unfold toArticles. simpl. rewrite Hitems, Htotal. simpl.
  unfold or_, collection_of. simpl. by destruct (Z.eqb_spec total 0) as [->|].
Qed.

Lemma toCategories_no_items props total :
  own "items" props = None → own "total" props = Some (VNum total) →
  toCategories (VObj props) = Ok (collection_of total []).
Proof.
  intros Hitems Htotal. unfold toCategories. simpl. rewrite Hitems, Htotal. simpl.
  unfold or_, collection_of. simpl. by destruct (Z.eqb_spec total 0) as [->|].
Qed.

Lemma toArticles_items props items :
  own "items" props = Some (VArr items) →
  toArticles (VObj props) = collection_of 0 <$> mapM toArticle items.
Proof.
  intros Hitems. unfold toArticles. simpl. rewrite Hitems. simpl.
  by destruct (mapM toArticle items).
Qed.

Lemma toCategories_items props items :
  own "items" props = Some (VArr items) →
  toCategories (VObj props) = collection_of 0 <$> mapM toCategory items.
Proof.
  intros Hitems. unfold toCategories. simpl. rewrite Hitems. simpl.
  by destruct (mapM toCategory items).
Qed.

(** ** Reads from values that passed a truthiness guard *)

Lemma get_read v k : truthy v = true → get v k = Ok (read v k).
Proof. unfold read. by destruct v. Qed.

Lemma read_obj props k : read (VObj props) k = default VUndefined (own k props).
Proof. done. Qed.

Lemma read_depth v k : truthy (read v k) = true → (depth (read v k) < depth v)%nat.
Proof.
  unfold read. destruct (get v k) as [w|] eqn:Hget; [|done].
  intros. by eapply get_depth_lt.
Qed.

(** Rewrites the reads of a guarded value and evaluates the binds. *)
Ltac js_read v := rewrite ?(get_read v) by done; simpl.

(** ** [toCategory] and [toImage] never throw *)

Lemma toCategory_falsy entity :
  truthy entity = false → toCategory entity = Ok VNull.
Proof. intros H. rewrite toCategory_unfold. unfold toCategory_body. by rewrite H. Qed.

Lemma toCategory_no_fields entity :
  truthy entity = true → truthy (read entity "fields") = false →
  toCategory entity = Ok (VObj [("id", read entity "id")]).
Proof.
  intros He Hf. rewrite toCategory_unfold. unfold toCategory_body, path.
  rewrite He. simpl. js_read entity. by rewrite Hf.
Qed.

Lemma toCategory_fields entity :
  truthy entity = true → truthy (read entity "fields") = true →
  toCategory entity =
    let fields := read entity "fields" in
    let data := VObj [("id", read entity "id"); ("name", read fields "name");
                      ("slug", read fields "slug")] in
    if truthy (read fields "parent")
    then parent' ← toCategory (read fields "parent");
         Ok (set data "parent" parent')
    else Ok data.
Proof.
  intros He Hf. rewrite toCategory_unfold. unfold toCategory_body, path.
  rewrite He. simpl. js_read entity. rewrite Hf.
  js_read (read entity "fields"). done.
Qed.

Lemma toCategory_entity entity :
  truthy entity = true →
  ∃ data, toCategory entity = Ok data ∧ CategoryEntity data.
Proof.
  remember (depth entity) as n eqn:Hn. revert entity Hn.
  induction (lt_wf n) as [n _ IH]. intros entity -> He.
  destruct (truthy (read entity "fields")) eqn:Hf.
  - rewrite toCategory_fields by done. simpl.
    destruct (truthy (read (read entity "fields") "parent")) eqn:Hp.
    + destruct (IH (depth (read (read entity "fields") "parent")))
        with (entity := read (read entity "fields") "parent")
        as (parent' & -> & Hparent'); [|done|done|].
      { pose proof (read_depth _ _ Hf). pose proof (read_depth _ _ Hp). lia. }
      simpl. eexists. split; [done|].
      constructor; simpl; [by eexists|]. by intros ? [= <-].
    + eexists. split; [done|]. constructor; simpl; [by eexists|done].
  - rewrite toCategory_no_fields by done.
    eexists. split; [done|]. constructor; simpl; [by eexists|done].
Qed.

Lemma toCategory_total entity : ∃ data, toCategory entity = Ok data.
Proof.
  destruct (truthy entity) eqn:He.
  - destruct (toCategory_entity entity He) as (data & ? & _). eauto.
  - rewrite toCategory_falsy by done. eauto.
Qed.

Lemma toImage_total entity : ∃ data, toImage entity = Ok data.
Proof.
  unfold toImage, path. destruct (truthy entity) eqn:He; simpl; [|eauto].
  js_read entity. destruct (truthy (read entity "fields")) eqn:Hf; [|eauto].
  set (fields := read entity "fields") in *. js_read fields.
  destruct (truthy (read fields "file")) eqn:Hfile; [|eauto].
  set (file := read fields "file") in *. js_read file.
  destruct (truthy (read file "details")) eqn:Hd; [|eauto].
  set (details := read file "details") in *. js_read details.
  destruct (truthy (read details "image")) eqn:Hi; [|eauto].
  js_read (read details "image"). eauto.
Qed.

(** ** What normalization can throw *)

Lemma throws_Ok {A} (a : A) : throws_only_TypeError (Ok a).
Proof. by intros e. Qed.

Lemma throws_TypeError {A} : throws_only_TypeError (@Err A TypeError).
Proof. by intros e [= <-]. Qed.

Lemma throws_bind {A B} (m : result A) (f : A → result B) :
  throws_only_TypeError m → (∀ a, throws_only_TypeError (f a)) →
  throws_only_TypeError (m ≫= f).
Proof.
  intros Hm Hf e. destruct m as [a|e']; simpl; [apply Hf|].
  intros [= <-]. by apply Hm.
Qed.

Lemma throws_fmap {A B} (m : result A) (f : A → B) :
  throws_only_TypeError m → throws_only_TypeError (f <$> m).
Proof. intros Hm e. destruct m; simpl; [done|]. intros [= <-]. by apply Hm. Qed.

Lemma throws_if {A} (b : bool) (r1 r2 : result A) :
  throws_only_TypeError r1 → throws_only_TypeError r2 →
  throws_only_TypeError (if b then r1 else r2).
Proof. by destruct b. Qed.

Lemma throws_get v k : throws_only_TypeError (get v k).
Proof. intros e. destruct v; simpl; try done; by intros [= <-]. Qed.

Lemma throws_index a i : throws_only_TypeError (index a i).
Proof. intros e. destruct a; simpl; try done; by intros [= <-]. Qed.

Lemma throws_path v ks : throws_only_TypeError (path v ks).
Proof.
  revert v. induction ks; simpl; auto using throws_Ok, throws_bind, throws_get.
Qed.

Lemma throws_mapM (f : value → result value) items :
  (∀ x, throws_only_TypeError (f x)) → throws_only_TypeError (mapM f items).
Proof.
  intros Hf. induction items; simpl; auto 6 using throws_Ok, throws_bind.
Qed.

Lemma throws_array_map f a :
  (∀ x, throws_only_TypeError (f x)) → throws_only_TypeError (array_map f a).
Proof.
  destruct a; simpl; auto using throws_TypeError, throws_fmap, throws_mapM.
Qed.

Lemma throws_toCategory entity : throws_only_TypeError (toCategory entity).
Proof. by destruct (toCategory_total entity) as [data ->]. Qed.

Lemma throws_toImage entity : throws_only_TypeError (toImage entity).
Proof. by destruct (toImage_total entity) as [data ->]. Qed.

Lemma throws_toArticle entity : throws_only_TypeError (toArticle entity).
Proof.
  unfold toArticle.
  auto 20 using throws_Ok, throws_bind, throws_if, throws_get, throws_path,
    throws_toCategory, throws_toImage.
Qed.

Lemma throws_toArticles collection :
  throws_only_TypeError (toArticles collection).
Proof.
  unfold toArticles.
  auto 10 using throws_Ok, throws_bind, throws_if, throws_get,
    throws_array_map, throws_toArticle.
Qed.

Lemma throws_toCategories collection :
  throws_only_TypeError (toCategories collection).
Proof.
  unfold toCategories.
  auto 10 using throws_Ok, throws_bind, throws_if, throws_get,
    throws_array_map, throws_toCategory.
Qed.

Lemma throws_first_or_null collection :
  throws_only_TypeError (first_or_null collection).
Proof.
  unfold first_or_null.
  auto 10 using throws_Ok, throws_bind, throws_if, throws_get, throws_path,
    throws_index.
Qed.

(** ** Collections: totals and items *)

(** C1.  The invariant [items.length <= total] does not survive
    [toArticles] and [toCategories]: on a raw collection that reports one
    item and [total: 1], both return that item with [total] left at [0]. *)
Theorem collections_total_below_items :
  let raw := VObj [("total", VNum 1);
                   ("items", VArr [VObj [("id", VStr "a"); ("fields", VObj [])]])] in
  let articles :=
    collection_of 0
      [VObj [("id", VStr "a"); ("createdAt", VUndefined);
             ("updatedAt", VUndefined); ("title", VUndefined);
             ("slug", VUndefined); ("summary", VUndefined);
             ("countViews", VNum 1)]] in
  let categories :=
    collection_of 0
      [VObj [("id", VStr "a"); ("name", VUndefined); ("slug", VUndefined)]] in
  toArticles raw = Ok articles ∧ ¬ length_within_total articles ∧
  toCategories raw = Ok categories ∧ ¬ length_within_total categories.
Proof.
  repeat split; try reflexivity;
    intros (total & items & [= <- <-] & Hle); simpl in Hle; lia.
Qed.

(** C2.  [toArticles] and [toCategories] map an absent collection to
    [{total: 0, items: []}]; a collection with a total and no [items] key to
    that total with no items; and a collection whose [items] key holds an
    array to the items normalized one by one in the same order, with the
    total left at [0] whatever total the raw collection reports. *)
Theorem collections_cases (props : list (string * value)) (total : Z)
    (items articles categories : list value) :
  (toArticles VUndefined = Ok (collection_of 0 []) ∧
   toArticles VNull = Ok (collection_of 0 []) ∧
   toCategories VUndefined = Ok (collection_of 0 []) ∧
   toCategories VNull = Ok (collection_of 0 [])) ∧
  (own "items" props = None → own "total" props = Some (VNum total) →
   toArticles (VObj props) = Ok (collection_of total []) ∧
   toCategories (VObj props) = Ok (collection_of total [])) ∧
  (own "items" props = Some (VArr items) →
   (Forall2 (λ raw article, toArticle raw = Ok article) items articles ↔
    toArticles (VObj props) = Ok (collection_of 0 articles)) ∧
   (Forall2 (λ raw category, toCategory raw = Ok category) items categories ↔
    toCategories (VObj props) = Ok (collection_of 0 categories))).
Proof.
  split; [by rewrite !toArticles_absent, !toCategories_absent|]. split.
  - intros Hitems Htotal.
    by rewrite (toArticles_no_items _ total), (toCategories_no_items _ total).
  - intros Hitems.
    rewrite (toArticles_items _ _ Hitems), (toCategories_items _ _ Hitems).
    rewrite <- !mapM_Ok. split.
    + destruct (mapM toArticle items); simpl; [|done].
      unfold collection_of. split; congruence.
    + destruct (mapM toCategory items); simpl; [|done].
      unfold collection_of. split; congruence.
Qed.

Lemma collections_cases_witness :
  let a := VObj [("id", VStr "a"); ("fields", VObj [("title", VStr "A")])] in
  let b := VObj [("id", VStr "b"); ("fields", VObj [("title", VStr "B")])] in
  toArticles (VObj [("total", VNum 5)]) = Ok (collection_of 5 []) ∧
  toArticles (VObj [("total", VNum 7); ("items", VArr [a; b])])
    = Ok (collection_of 0
            [VObj [("id", VStr "a"); ("createdAt", VUndefined);
                   ("updatedAt", VUndefined); ("title", VStr "A");
                   ("slug", VUndefined); ("summary", VUndefined);
                   ("countViews", VNum 1)];
             VObj [("id", VStr "b"); ("createdAt", VUndefined);
                   ("updatedAt", VUndefined); ("title", VStr "B");
                   ("slug", VUndefined); ("summary", VUndefined);
                   ("countViews", VNum 1)]]).
Proof.
  intros a b. split.
  - apply (collections_cases [("total", VNum 5)] 5 [] [] []); reflexivity.
  - pose proof (collections_cases
                  [("total", VNum 7); ("items", VArr [a; b])] 7 [a; b]) as H.
    match goal with |- _ = Ok (collection_of 0 ?l) => specialize (H l []) end.
    destruct H as (_ & _ & H). destruct (H eq_refl) as [[H' _] _].
    apply H'. repeat constructor.
Defined.

(** ** Entities: omitted fields *)

(** [toArticle] reads [entity.fields.title] without a guard: the [fields]
    bag, which the raw entity type requires, has to be there. *)
Lemma toArticle_without_fields :
  toArticle (VObj [("id", VStr "1")]) = Err TypeError.
Proof. reflexivity. Qed.

Ltac each_key Hk :=
  repeat (apply elem_of_cons in Hk as [->|Hk]); [..|by apply elem_of_nil in Hk].

(** C3.  On a raw payload whose [fields] bag is present, [toArticle] and
    [toCategory] return without throwing, whichever optional fields are left
    out.  A field left out of the input reads [undefined] on the output
    (neither [null] nor the empty string); [text], [category], [image] and a
    category's [parent] are then not even keys of the output, and a category
    never receives timestamps.  The exception is [countViews], which is [1]
    when the input has none or a falsy one.  The seven fields of the object
    literal of [toArticle] are keys of every article, holding [undefined]
    where the input has nothing.  [toCategory] does not throw either when
    [fields] itself is left out, and then sets [id] only. *)
Theorem normalization_omitted_fields (props fprops : list (string * value)) :
  (own "fields" props = Some (VObj fprops) →
   (∃ data, toArticle (VObj props) = Ok data ∧
      (∀ k, k ∈ ["id"; "createdAt"; "updatedAt"] →
            own k props = None → get data k = Ok VUndefined) ∧
      (∀ k, k ∈ ["title"; "slug"; "summary"] →
            own k fprops = None → get data k = Ok VUndefined) ∧
      (∀ k, k ∈ ["text"; "category"; "image"] →
            own k fprops = None → has data k = false) ∧
      (truthy (read (VObj fprops) "countViews") = false →
       get data "countViews" = Ok (VNum 1)) ∧
      (∀ k, k ∈ ["id"; "createdAt"; "updatedAt"; "title"; "slug"; "summary";
                 "countViews"] → has data k = true)) ∧
   (∃ data, toCategory (VObj props) = Ok data ∧
      has data "createdAt" = false ∧ has data "updatedAt" = false ∧
      (own "id" props = None → get data "id" = Ok VUndefined) ∧
      (∀ k, k ∈ ["name"; "slug"] →
            own k fprops = None → get data k = Ok VUndefined) ∧
      (own "parent" fprops = None → has data "parent" = false))) ∧
  (own "fields" props = None →
   toCategory (VObj props) = Ok (VObj [("id", read (VObj props) "id")])).
Proof.
  split.
  - intros Hfields. split.
    + unfold toArticle, path. simpl. rewrite Hfields. simpl.
      destruct (truthy (default VUndefined (own "text" fprops))) eqn:Htext;
        simpl;
        (destruct (truthy (default VUndefined (own "category" fprops)))
           eqn:Hcategory; simpl;
         [destruct (toCategory_total (default VUndefined (own "category" fprops)))
            as [category' ->]; simpl|]);
        (destruct (truthy (default VUndefined (own "image" fprops)))
           eqn:Himage; simpl;
         [destruct (toImage_total (default VUndefined (own "image" fprops)))
            as [image' ->]; simpl|]);
        (eexists; split; [reflexivity|]);
        (split; [|split; [|split; [|split]]]);
        first [ intros k Hk Hnone; each_key Hk; simpl;
                rewrite ?Hnone in *; simpl in *; done
              | intros k Hk; each_key Hk; done
              | unfold read; simpl; unfold or_; by intros -> ].
    + assert (truthy (read (VObj props) "fields") = true) as Hf
        by (rewrite read_obj, Hfields; done).
      rewrite toCategory_fields by done. simpl.
      rewrite !(read_obj props "fields"), Hfields. simpl.
      destruct (truthy (read (VObj fprops) "parent")) eqn:Hparent.
      * destruct (toCategory_total (read (VObj fprops) "parent"))
          as [parent' ->]. simpl.
        eexists; split; [reflexivity|].
        split; [done|]. split; [done|]. split; [|split].
        -- intros Hnone. simpl. by rewrite read_obj, Hnone.
        -- intros k Hk Hnone; each_key Hk; simpl; by rewrite read_obj, Hnone.
        -- intros Hnone. by rewrite read_obj, Hnone in Hparent.
      * eexists; split; [reflexivity|].
        split; [done|]. split; [done|]. split; [|split].
        -- intros Hnone. simpl. by rewrite read_obj, Hnone.
        -- intros k Hk Hnone; each_key Hk; simpl; by rewrite read_obj, Hnone.
        -- done.
  - intros Hnone. apply toCategory_no_fields; [done|].
    by rewrite read_obj, Hnone.
Qed.

Lemma normalization_omitted_fields_witness :
  ∃ data,
    toArticle (VObj [("id", VStr "1"); ("fields", VObj [])]) = Ok data ∧
    get data "title" = Ok VUndefined ∧ has data "text" = false ∧
    get data "countViews" = Ok (VNum 1).
Proof.
  destruct (normalization_omitted_fields
              [("id", VStr "1"); ("fields", VObj [])] []) as [H _].
  destruct (H eq_refl) as [(data & Hdata & _ & Hfields & Hkeys & Hviews & _) _].
  exists data. split; [exact Hdata|]. split; [|split].
  - apply Hfields; [|reflexivity]. apply list_elem_of_here.
  - apply Hkeys; [|reflexivity]. apply list_elem_of_here.
  - apply Hviews. reflexivity.
Defined.

(** ** Single-item lookups: the filter guard *)

Lemma read_falsy v k : truthy v = false → read v k = VUndefined.
Proof. by destruct v. Qed.

Lemma invalid_item_filter_eq filter :
  invalid_item_filter filter
  = Ok (negb (truthy filter)
        || negb (truthy (read filter "id")) && negb (truthy (read filter "slug"))).
Proof.
  unfold invalid_item_filter. destruct (truthy filter) eqn:Hf; simpl; [|done].
  js_read filter. by destruct (truthy (read filter "id")).
Qed.

Lemma article_invalid filter :
  invalid_item_filter filter = Ok true → article filter = reject invalid_filter.
Proof. intros H. unfold article. by rewrite H. Qed.

Lemma category_invalid filter :
  invalid_item_filter filter = Ok true → category filter = reject invalid_filter.
Proof. intros H. unfold category. by rewrite H. Qed.

Lemma article_valid filter :
  invalid_item_filter filter = Ok false →
  article filter =
    then_ (getArticles
             (if truthy (read filter "slug")
              then <["fields.slug" := read filter "slug"]>
                     {[ "include" := VNum 1; "limit" := VNum 1 ]}
              else <["sys.id" := read filter "id"]>
                     {[ "include" := VNum 1; "limit" := VNum 1 ]}))
      first_or_null.
Proof.
  intros H. unfold article. rewrite H. simpl.
  rewrite invalid_item_filter_eq in H.
  destruct (truthy filter) eqn:Hf; [|done].
  js_read filter. by destruct (truthy (read filter "slug")).
Qed.

Lemma category_valid filter :
  invalid_item_filter filter = Ok false →
  category filter =
    then_ (getCategories
             (if truthy (read filter "slug")
              then <["fields.slug" := read filter "slug"]>
                     {[ "include" := VNum 1; "limit" := VNum 1 ]}
              else <["sys.id" := read filter "id"]>
                     {[ "include" := VNum 1; "limit" := VNum 1 ]}))
      first_or_null.
Proof.
  intros H. unfold category. rewrite H. simpl.
  rewrite invalid_item_filter_eq in H.
  destruct (truthy filter) eqn:Hf; [|done].
  js_read filter. by destruct (truthy (read filter "slug")).
Qed.

Lemma run_getArticles upstream query f :
  run upstream (then_ (getArticles query) f)
  = upstream ContentTypes.ARTICLE
      (<["content_type" := VStr ContentTypes.ARTICLE]> query)
    ≫= λ raw, toArticles raw ≫= f.
Proof.
  simpl. destruct (upstream _ _) as [raw|]; simpl; [|done].
  by destruct (toArticles raw).
Qed.

Lemma run_getCategories upstream query f :
  run upstream (then_ (getCategories query) f)
  = upstream ContentTypes.CATEGORY
      (<["content_type" := VStr ContentTypes.CATEGORY]> query)
    ≫= λ raw, toCategories raw ≫= f.
Proof.
  simpl. destruct (upstream _ _) as [raw|]; simpl; [|done].
  by destruct (toCategories raw).
Qed.

Lemma item_filter_cases filter :
  (invalid_item_filter filter = Ok true ∧
   (truthy filter = false ∨
    truthy (read filter "id") = false ∧ truthy (read filter "slug") = false)) ∨
  (invalid_item_filter filter = Ok false ∧ truthy filter = true ∧
   (truthy (read filter "id") = true ∨ truthy (read filter "slug") = true)).
Proof.
  rewrite invalid_item_filter_eq.
  destruct (truthy filter), (truthy (read filter "id")),
    (truthy (read filter "slug")); simpl; auto.
Qed.

(** C4, as the code has it.  [article] and [category] reject with the
    invalid-filter error exactly when the filter is falsy or neither its
    [id] nor its [slug] is truthy; a filter with a truthy [slug] alone is not
    rejected.  Any other filter leads to a fetch, whose outcome is that error
    only if the collaborator rejects with it, and when the collaborator
    answers a collection with no items the promise resolves to [null]. *)
Theorem item_filter_guard (filter : value)
    (upstream : string → gmap string value → result value)
    (rprops : list (string * value)) :
  let invalid :=
    truthy filter = false ∨
    truthy (read filter "id") = false ∧ truthy (read filter "slug") = false in
  (article filter = reject invalid_filter ↔ invalid) ∧
  (category filter = reject invalid_filter ↔ invalid) ∧
  ((∀ contentType query, upstream contentType query ≠ Err invalid_filter) →
   (run upstream (article filter) = Err invalid_filter ↔ invalid) ∧
   (run upstream (category filter) = Err invalid_filter ↔ invalid)) ∧
  (¬ invalid →
   is_Some (requested (article filter)) ∧
   is_Some (requested (category filter)) ∧
   ((∀ contentType query, upstream contentType query = Ok (VObj rprops)) →
    own "items" rprops = Some (VArr []) →
    run upstream (article filter) = Ok VNull ∧
    run upstream (category filter) = Ok VNull)).
Proof.
  intros invalid. subst invalid.
  destruct (item_filter_cases filter) as [[Hi Hinv]|(Hv & Hf & Hval)].
  - rewrite (article_invalid _ Hi), (category_invalid _ Hi).
    split; [done|]. split; [done|]. split; [done|]. intros []. done.
  - rewrite (article_valid _ Hv), (category_valid _ Hv).
    assert (¬ (truthy filter = false
               ∨ truthy (read filter "id") = false
                 ∧ truthy (read filter "slug") = false)) as Hnot.
    { intros [?|[? ?]]; [congruence|]. destruct Hval; congruence. }
    split; [split; [done|intros; by destruct Hnot]|].
    split; [split; [done|intros; by destruct Hnot]|].
    rewrite run_getArticles, run_getCategories. split.
    + intros Hup.
      split; (split; [|intros; by destruct Hnot]); intros Herr; exfalso.
      * destruct (upstream _ _) as [raw|e] eqn:Hraw in Herr; simpl in Herr.
        -- assert (throws_only_TypeError (toArticles raw ≫= first_or_null))
             as Hthrows
             by auto using throws_bind, throws_toArticles, throws_first_or_null.
           by apply Hthrows in Herr.
        -- by eapply Hup; rewrite Hraw, Herr.
      * destruct (upstream _ _) as [raw|e] eqn:Hraw in Herr; simpl in Herr.
        -- assert (throws_only_TypeError (toCategories raw ≫= first_or_null))
             as Hthrows
             by auto using throws_bind, throws_toCategories, throws_first_or_null.
           by apply Hthrows in Herr.
        -- by eapply Hup; rewrite Hraw, Herr.
    + intros _. split; [by eexists|]. split; [by eexists|].
      intros Hup Hitems. rewrite !Hup. simpl.
      by rewrite (toArticles_items _ _ Hitems), (toCategories_items _ _ Hitems).
Qed.

Lemma item_filter_guard_witness :
  let upstream := λ (_ : string) (_ : gmap string value),
                    Ok (VObj [("total", VNum 0); ("items", VArr [])]) in
  run upstream (category (VObj [("slug", VStr "x")])) = Ok VNull.
Proof.
  intros upstream.
  destruct (item_filter_guard (VObj [("slug", VStr "x")]) upstream
              [("total", VNum 0); ("items", VArr [])]) as (_ & _ & _ & H).
  destruct H as (_ & _ & H).
  - intros [H|[_ H]]; discriminate H.
  - apply H; [intros; reflexivity|reflexivity].
Defined.

(** C4, as stated, fails: the filter [{id: ''}] has an [id], yet [category]
    and [article] reject it with the invalid-filter error. *)
Lemma item_filter_empty_id_rejected :
  let filter := VObj [("id", VStr "")] in
  category filter = reject invalid_filter ∧
  article filter = reject invalid_filter ∧
  ¬ (nullish filter = true ∨ has filter "id" = false ∧ has filter "slug" = false).
Proof.
  split; [reflexivity|]. split; [reflexivity|].
  intros [H|[H _]]; discriminate H.
Qed.

(** C10.  The guard of [article] and [category] tests truthiness: a filter
    whose [id] and [slug] are each either left out or the empty string is
    rejected with the invalid-filter error, as the filter [{}] is. *)
Theorem item_filter_empty_strings (props : list (string * value)) :
  own "id" props = None ∨ own "id" props = Some (VStr "") →
  own "slug" props = None ∨ own "slug" props = Some (VStr "") →
  article (VObj props) = reject invalid_filter ∧
  category (VObj props) = reject invalid_filter ∧
  article (VObj props) = article (VObj []) ∧
  category (VObj props) = category (VObj []).
Proof.
  intros Hid Hslug.
  assert (invalid_item_filter (VObj props) = Ok true) as Hi.
  { rewrite invalid_item_filter_eq, !read_obj.
    destruct Hid as [-> | ->], Hslug as [-> | ->]; done. }
  by rewrite (article_invalid _ Hi), (category_invalid _ Hi).
Qed.

Lemma item_filter_empty_strings_witness :
  article (VObj [("id", VStr ""); ("slug", VStr "")]) = reject invalid_filter ∧
  category (VObj [("id", VStr "")]) = reject invalid_filter ∧
  article (VObj [("slug", VStr "")]) = reject invalid_filter.
Proof.
  split; [|split].
  - apply (item_filter_empty_strings [("id", VStr ""); ("slug", VStr "")]);
      right; reflexivity.
  - apply (item_filter_empty_strings [("id", VStr "")]);
      [right|left]; reflexivity.
  - apply (item_filter_empty_strings [("slug", VStr "")]);
      [left|right]; reflexivity.
Defined.

(** ** Single-item lookups: the query *)

(** C6, as the code has it.  For a filter that passes the guard, [article]
    and [category] ask the collaborator for at most one entry with one level
    of relation expansion ([include: 1], [limit: 1]), filtered on
    [fields.slug] when the filter's [slug] is truthy and on [sys.id]
    otherwise; with both a truthy [slug] and an [id], the [id] is ignored. *)
Theorem item_query (filter : value) :
  truthy filter = true →
  (truthy (read filter "slug") = true →
   requested (article filter)
     = Some ("article",
             {[ "content_type" := VStr "article";
                "fields.slug" := read filter "slug";
                "include" := VNum 1; "limit" := VNum 1 ]}) ∧
   requested (category filter)
     = Some ("category",
             {[ "content_type" := VStr "category";
                "fields.slug" := read filter "slug";
                "include" := VNum 1; "limit" := VNum 1 ]})) ∧
  (truthy (read filter "slug") = false → truthy (read filter "id") = true →
   requested (article filter)
     = Some ("article",
             {[ "content_type" := VStr "article";
                "sys.id" := read filter "id";
                "include" := VNum 1; "limit" := VNum 1 ]}) ∧
   requested (category filter)
     = Some ("category",
             {[ "content_type" := VStr "category";
                "sys.id" := read filter "id";
                "include" := VNum 1; "limit" := VNum 1 ]})).
Proof.
  intros Hf. split.
  - intros Hslug.
    assert (invalid_item_filter filter = Ok false) as Hv.
    { rewrite invalid_item_filter_eq, Hf, Hslug. by rewrite andb_false_r. }
    rewrite (article_valid _ Hv), (category_valid _ Hv), Hslug.
    split; reflexivity.
  - intros Hslug Hid.
    assert (invalid_item_filter filter = Ok false) as Hv.
    { by rewrite invalid_item_filter_eq, Hf, Hid. }
    rewrite (article_valid _ Hv), (category_valid _ Hv), Hslug.
    split; reflexivity.
Qed.

Lemma item_query_witness :
  requested (article (VObj [("id", VStr "a"); ("slug", VStr "s")]))
  = Some ("article",
          {[ "content_type" := VStr "article"; "fields.slug" := VStr "s";
             "include" := VNum 1; "limit" := VNum 1 ]}).
Proof.
  apply (item_query (VObj [("id", VStr "a"); ("slug", VStr "s")]));
    reflexivity.
Defined.

(** C6, as stated, fails: in the filter [{id: 'a', slug: ''}] both fields are
    supplied, yet the query filters on [sys.id] and has no [fields.slug]. *)
Lemma item_query_empty_slug :
  let filter := VObj [("id", VStr "a"); ("slug", VStr "")] in
  let by_id (contentType : string) : gmap string value :=
    {[ "content_type" := VStr contentType; "sys.id" := VStr "a";
       "include" := VNum 1; "limit" := VNum 1 ]} in
  has filter "id" = true ∧ has filter "slug" = true ∧
  requested (article filter) = Some ("article", by_id "article") ∧
  requested (category filter) = Some ("category", by_id "category") ∧
  (by_id "article") !! "fields.slug" = None ∧
  (by_id "category") !! "fields.slug" = None.
Proof. repeat split; vm_compute; reflexivity. Qed.

(** ** Article lists: the query *)

Lemma is_str_true v s : is_str v s = true → v = VStr s.
Proof.
  destruct v; simpl; try done. by intros ->%String.eqb_eq.
Qed.

Lemma list_select_projection : list_select = String.concat "," list_projection.
Proof. reflexivity. Qed.

Lemma insert_keys (k0 : string) (v : value) (m : gmap string value)
    (ks : list string) :
  k0 ∈ ks → (∀ k, is_Some (m !! k) → k ∈ ks) →
  ∀ k, is_Some (<[k0:=v]> m !! k) → k ∈ ks.
Proof.
  intros Hk0 Hm k [w Hk]. apply lookup_insert_Some in Hk as [[<- _]|[_ Hk]].
  - done.
  - apply Hm. by eexists.
Qed.

Lemma empty_keys (ks : list string) :
  ∀ k, is_Some ((∅ : gmap string value) !! k) → k ∈ ks.
Proof. intros k [w Hk]. by rewrite lookup_empty in Hk. Qed.

Lemma text_not_projected : "fields.text" ∉ list_projection.
Proof.
  unfold list_projection. rewrite !not_elem_of_cons.
  repeat split; try discriminate. apply not_elem_of_nil.
Qed.

Ltac listed := repeat first [apply list_elem_of_here | apply list_elem_of_further].

(** C5, as the code has it.  For a filter that is present, [articles] asks
    for articles with the filter's limit and the fixed projection, which does
    not name the text; the order is ascending creation for ['createdAt'],
    ascending views for ['countViews'], descending views for ['-countViews']
    and descending creation for anything else; a truthy [categoryId] and a
    truthy [categorySlug] each add an equality on the related category, and a
    falsy one (left out or empty) adds nothing.  The answer of the
    collaborator goes through [toArticles]. *)
Theorem list_query (filter : value) :
  truthy filter = true →
  ∃ query,
    requested (articles filter) = Some ("article", query) ∧
    query !! "content_type" = Some (VStr "article") ∧
    query !! "limit" = Some (read filter "limit") ∧
    query !! "select" = Some (VStr (String.concat "," list_projection)) ∧
    ("fields.text" ∉ list_projection) ∧
    (read filter "order" = VStr "createdAt" →
     query !! "order" = Some (VStr "sys.createdAt")) ∧
    (read filter "order" = VStr "countViews" →
     query !! "order" = Some (VStr "fields.countViews")) ∧
    (read filter "order" = VStr "-countViews" →
     query !! "order" = Some (VStr "-fields.countViews")) ∧
    (read filter "order" ∉ [VStr "createdAt"; VStr "countViews";
                            VStr "-countViews"] →
     query !! "order" = Some (VStr "-sys.createdAt")) ∧
    query !! "fields.category.sys.id"
      = (if truthy (read filter "categoryId")
         then Some (read filter "categoryId") else None) ∧
    query !! "fields.category.fields.slug"
      = (if truthy (read filter "categorySlug")
         then Some (read filter "categorySlug") else None) ∧
    (∀ k, is_Some (query !! k) →
          k ∈ ["limit"; "select"; "order"; "fields.category.sys.id";
               "fields.category.fields.slug"; "content_type"]) ∧
    (∀ upstream raw, upstream "article" query = Ok raw →
                     run upstream (articles filter) = toArticles raw).
Proof.
  intros Hf. unfold articles. rewrite Hf. simpl. js_read filter.
  generalize (read filter "limit") (read filter "order")
    (read filter "categoryId") (read filter "categorySlug").
  intros limit order categoryId categorySlug.
  eexists. split; [reflexivity|].
  destruct (is_str order "createdAt") eqn:H1;
    [apply is_str_true in H1 as ->
    |destruct (is_str order "countViews") eqn:H2;
      [apply is_str_true in H2 as ->
      |destruct (is_str order "-countViews") eqn:H3;
        [apply is_str_true in H3 as ->|]]];
    destruct (truthy categoryId), (truthy categorySlug);
    repeat match goal with
      | |- _ ∧ _ => split
      | |- _ ∉ _ => apply text_not_projected
      | |- _ !! _ = _ => reflexivity
      | |- _ = VStr _ → _ =>
          first [done | intros ->; simpl in *; discriminate]
      | |- _ ∉ _ → _ =>
          first [done | intros Hnot; exfalso; apply Hnot; listed]
      | |- ∀ k, is_Some _ → _ =>
          repeat (apply insert_keys; [listed|]); apply empty_keys
      | |- ∀ upstream raw, _ =>
          intros upstream raw Hup; simpl; unfold ContentTypes.ARTICLE in *;
          rewrite Hup; by destruct (toArticles raw)
      end.
Qed.

Lemma list_query_witness :
  ∃ query,
    requested (articles (VObj [("limit", VNum 10); ("order", VStr "countViews")]))
      = Some ("article", query) ∧
    query !! "limit" = Some (VNum 10) ∧
    query !! "order" = Some (VStr "fields.countViews") ∧
    query !! "select" = Some (VStr list_select).
Proof.
  destruct (list_query (VObj [("limit", VNum 10); ("order", VStr "countViews")]))
    as (query & Hreq & _ & Hlimit & Hselect & _ & _ & Horder & _);
    [reflexivity|].
  exists query. split; [exact Hreq|]. split; [exact Hlimit|].
  split; [apply Horder; reflexivity|exact Hselect].
Defined.

(** C5, as stated, fails: the filter [{limit: 10, categoryId: '',
    categorySlug: ''}] supplies both category fields, yet the query has no
    equality on the related category. *)
Lemma list_query_empty_category :
  let filter := VObj [("limit", VNum 10); ("categoryId", VStr "");
                      ("categorySlug", VStr "")] in
  let query : gmap string value :=
    {[ "content_type" := VStr "article"; "order" := VStr "-sys.createdAt";
       "select" := VStr list_select; "limit" := VNum 10 ]} in
  has filter "categoryId" = true ∧ has filter "categorySlug" = true ∧
  requested (articles filter) = Some ("article", query) ∧
  query !! "fields.category.sys.id" = None ∧
  query !! "fields.category.fields.slug" = None.
Proof. repeat split; vm_compute; reflexivity. Qed.

(** ** Main categories *)

Lemma keeps_named item :
  keeps item = true ↔
  ∃ parent name, get item "parent" = Ok parent ∧ truthy parent = true ∧
                 get parent "name" = Ok name ∧ truthy name = true.
Proof.
  unfold keeps, has_named_parent, path. split.
  - destruct (get item "parent") as [parent|] eqn:Hparent; simpl; [|done].
    destruct (truthy parent) eqn:Ht; [|by rewrite Ht].
    destruct (get parent "name") as [name|] eqn:Hname; simpl; [|done].
    intros Hn. by exists parent, name.
  - intros (parent & name & -> & Ht & Hname & Hn). simpl.
    by rewrite Ht, Hname.
Qed.

Lemma filterM_keeps items :
  Forall (λ item, nullish item = false) items →
  filterM has_named_parent items = Ok (List.filter keeps items).
Proof.
  induction 1 as [|item items Hitem _ IH]; simpl; [done|].
  rewrite IH. unfold keeps, has_named_parent, path.
  destruct (get_total item "parent" Hitem) as [parent ->]. simpl.
  destruct (truthy parent) eqn:Ht; simpl; [|by rewrite Ht].
  destruct (get_total parent "name" (truthy_not_nullish _ Ht)) as [name ->].
  done.
Qed.

Lemma mapM_toCategory items :
  Forall (λ raw, truthy raw = true) items →
  ∃ categories,
    mapM toCategory items = Ok categories ∧
    Forall (λ category, nullish category = false) categories.
Proof.
  induction 1 as [|raw items Hraw _ (categories & IH & Hcs)]; simpl.
  - by exists [].
  - destruct (toCategory_entity raw Hraw) as (category & -> & Hc). simpl.
    rewrite IH. simpl. exists (category :: categories). split; [done|].
    constructor; [by destruct Hc|done].
Qed.

Lemma slice0_take stop items :
  (0 ≤ stop)%Z → slice0 stop items = take (Z.to_nat stop) items.
Proof.
  intros Hstop. unfold slice0.
  destruct (Z.ltb_spec stop 0) as [|_]; [lia|].
  destruct (Z.le_gt_cases stop (Z.of_nat (length items))).
  - by rewrite Z.min_l.
  - rewrite Z.min_r, Nat2Z.id by lia. rewrite !take_ge; [done|lia..].
Qed.

Lemma Forall_filter_keeps (P : value → Prop) items :
  (∀ item, keeps item = true → P item) → Forall P (List.filter keeps items).
Proof.
  intros HP. induction items as [|item items IH]; simpl; [done|].
  destruct (keeps item) eqn:Hk; [constructor; auto|done].
Qed.

Lemma number_add_exact a b :
  (Z.abs (a + b) < 9007199254740992)%Z → number_add a b = (a + b)%Z.
Proof.
  intros H. unfold number_add, to_double.
  by destruct (Z.ltb_spec (Z.abs (a + b)) 9007199254740992) as [_|]; [|lia].
Qed.

(** The callback of [mainCategories] keeps exactly the categories that the
    specification describes. *)
Lemma keeps_spec item : keeps item = spec_named_parent item.
Proof.
  unfold keeps, has_named_parent, path.
  destruct item as [| | | | |items|props]; simpl; try done.
  destruct (own "parent" props) as [parent|]; simpl; [|done].
  destruct parent as [| |[]|n|name|items|pprops]; simpl; try done.
  - destruct (Z.eqb n 0) eqn:Hn; simpl; [by rewrite Hn|done].
  - destruct (String.eqb name "") eqn:Hname; simpl; [by rewrite Hname|done].
  - by destruct (own "name" pprops) as [[]|].
Qed.

Lemma filter_keeps_spec categories :
  List.filter keeps categories = List.filter spec_named_parent categories.
Proof. apply List.filter_ext, keeps_spec. Qed.

(** C7, as the code has it.  [mainCategories(limit)] asks for [limit + 10]
    categories ordered by slug, the sum being the one of the code's numbers,
    exact below [2^53].  For a limit that is not negative and an answer
    whose items are all present, it resolves to the first [limit], at most,
    of the normalized categories whose [parent] is present and has a
    non-empty [name], in the order of the answer: no such category among the
    first is left out and no other is let in. *)
Theorem mainCategories_spec (limit : Z)
    (upstream : string → gmap string value → result value)
    (rprops : list (string * value)) (items : list value) :
  let query : gmap string value :=
    {[ "content_type" := VStr "category"; "order" := VStr "fields.slug";
       "limit" := VNum (number_add limit 10) ]} in
  (0 ≤ limit)%Z →
  upstream "category" query = Ok (VObj rprops) →
  own "items" rprops = Some (VArr items) →
  Forall (λ raw, truthy raw = true) items →
  requested (mainCategories limit) = Some ("category", query) ∧
  ((limit + 10 < 9007199254740992)%Z → number_add limit 10 = (limit + 10)%Z) ∧
  ∃ categories,
    Forall2 (λ raw category, toCategory raw = Ok category) items categories ∧
    let kept :=
      take (Z.to_nat limit) (List.filter spec_named_parent categories) in
    run upstream (mainCategories limit) = Ok (VArr kept) ∧
    (Z.of_nat (length kept) ≤ limit)%Z ∧
    Forall (λ category,
              ∃ parent name,
                get category "parent" = Ok parent ∧ truthy parent = true ∧
                get parent "name" = Ok name ∧ truthy name = true) kept.
Proof.
  intros query Hlimit Hup Hitems Hraw. split; [reflexivity|].
  split; [intros; apply number_add_exact; lia|].
  destruct (mapM_toCategory items Hraw) as (categories & Hmap & Hcs).
  exists categories. split; [by apply mapM_Ok|].
  rewrite <- filter_keeps_spec. split; [|split].
  - simpl. unfold ContentTypes.CATEGORY. fold query. rewrite Hup.
    rewrite (toCategories_items _ _ Hitems), Hmap. simpl.
    rewrite filterM_keeps; simpl.
    + by rewrite slice0_take.
    + clear -Hcs. induction categories as [|c cs IH]; simpl; [done|].
      inversion Hcs; subst. destruct (keeps c); [constructor|]; auto.
  - rewrite length_take. lia.
  - apply Forall_take, Forall_filter_keeps. intros c. apply keeps_named.
Qed.

Lemma mainCategories_spec_witness :
  let parent := VObj [("id", VStr "p"); ("fields", VObj [("name", VStr "P")])] in
  let child (id : string) :=
    VObj [("id", VStr id); ("fields", VObj [("parent", parent)])] in
  let category (id : string) :=
    VObj [("id", VStr id); ("name", VUndefined); ("slug", VUndefined);
          ("parent", VObj [("id", VStr "p"); ("name", VStr "P");
                           ("slug", VUndefined)])] in
  let upstream := λ (_ : string) (query : gmap string value),
    match query !! "limit" with
    | Some (VNum 15) =>
        Ok (VObj [("items", VArr [child "a"; parent; child "b"; child "c";
                                  child "d"; child "e"; child "f"])])
    | _ => Err TypeError
    end in
  run upstream (mainCategories 5)
  = Ok (VArr [category "a"; category "b"; category "c"; category "d";
              category "e"]).
Proof.
  intros parent child category upstream.
  destruct (mainCategories_spec 5 upstream
              [("items", VArr [child "a"; parent; child "b"; child "c";
                               child "d"; child "e"; child "f"])]
              [child "a"; parent; child "b"; child "c"; child "d"; child "e";
               child "f"])
    as (_ & _ & categories & Hmap & Hrun & _).
  - lia.
  - reflexivity.
  - reflexivity.
  - repeat constructor.
  - rewrite Hrun. apply mapM_Ok in Hmap. vm_compute in Hmap.
    injection Hmap as <-. reflexivity.
Defined.

(** C7, as stated, fails for a negative limit: [mainCategories(-1)] on an
    answer with three categories that have a named parent asks for [9]
    categories and resolves to two of them, which is more than [-1]. *)
Lemma mainCategories_minus_one :
  let parent := VObj [("id", VStr "p"); ("fields", VObj [("name", VStr "P")])] in
  let child (id : string) :=
    VObj [("id", VStr id); ("fields", VObj [("parent", parent)])] in
  let category (id : string) :=
    VObj [("id", VStr id); ("name", VUndefined); ("slug", VUndefined);
          ("parent", VObj [("id", VStr "p"); ("name", VStr "P");
                           ("slug", VUndefined)])] in
  let upstream := λ (_ : string) (_ : gmap string value),
    Ok (VObj [("items", VArr [child "a"; child "b"; child "c"])]) in
  requested (mainCategories (-1))
  = Some ("category",
          {[ "content_type" := VStr "category"; "order" := VStr "fields.slug";
             "limit" := VNum 9 ]}) ∧
  run upstream (mainCategories (-1)) = Ok (VArr [category "a"; category "b"]) ∧
  ¬ (Z.of_nat (length [category "a"; category "b"]) ≤ -1)%Z.
Proof. split; [|split]; [vm_compute; reflexivity..|simpl; lia]. Qed.

(** The sum [limit + 10] is the one of the code's numbers: at the largest
    safe integer the request is for [9007199254741000] categories. *)
Lemma mainCategories_largest_safe_limit :
  requested (mainCategories 9007199254740991)
  = Some ("category",
          {[ "content_type" := VStr "category"; "order" := VStr "fields.slug";
             "limit" := VNum 9007199254741000 ]}).
Proof. vm_compute. reflexivity. Qed.

(** ** Images *)

(** C8, as the code has it.  On a raw entity that is present [toImage] does
    not throw and always sets [id]; [url] and [contentType] are keys of the
    result exactly when the file has a truthy one, [size] exactly when
    [file.details] is present, and [width] and [height] exactly when
    [file.details.image] is present, each with the value of the payload.
    For the file [{url: 'u', details: {image: {width: 10, height: 20}}}] the
    result has [id], [url], [width] and [height], no [contentType] key, and
    a [size] key that holds [undefined]. *)
Theorem toImage_fields (entity : value) :
  truthy entity = true →
  let file := read (read entity "fields") "file" in
  let details := read file "details" in
  let image := read details "image" in
  (∃ data,
     toImage entity = Ok data ∧
     has data "id" = true ∧ get data "id" = Ok (read entity "id") ∧
     has data "url" = truthy (read file "url") ∧
     has data "contentType" = truthy (read file "contentType") ∧
     has data "size" = truthy details ∧
     has data "width" = truthy image ∧ has data "height" = truthy image ∧
     (truthy (read file "url") = true → get data "url" = Ok (read file "url")) ∧
     (truthy (read file "contentType") = true →
      get data "contentType" = Ok (read file "contentType")) ∧
     (truthy details = true → get data "size" = Ok (read details "size")) ∧
     (truthy image = true →
      get data "width" = Ok (read image "width") ∧
      get data "height" = Ok (read image "height"))) ∧
  toImage
    (VObj [("fields",
            VObj [("file",
                   VObj [("url", VStr "u");
                         ("details",
                          VObj [("image",
                                 VObj [("width", VNum 10);
                                       ("height", VNum 20)])])])])])
  = Ok (VObj [("id", VUndefined); ("url", VStr "u"); ("size", VUndefined);
              ("width", VNum 10); ("height", VNum 20)]).
Proof.
  intros He file details image. split; [|reflexivity].
  unfold toImage, path. rewrite He. simpl. js_read entity.
  destruct (truthy (read entity "fields")) eqn:Hfields.
  2: { subst image details file. rewrite (read_falsy _ "file" Hfields).
       eexists. split; [done|]. repeat split; done. }
  js_read (read entity "fields"). fold file.
  destruct (truthy file) eqn:Hfile.
  2: { subst image details. rewrite !(read_falsy file) by done.
       eexists. split; [done|]. repeat split; done. }
  js_read file. fold details.
  destruct (truthy details) eqn:Hdetails.
  2: { subst image. rewrite (read_falsy details) by done.
       destruct (truthy (read file "url")), (truthy (read file "contentType"));
         (eexists; split; [done|]); repeat split; done. }
  js_read details. fold image.
  destruct (truthy image) eqn:Himage.
  2: { destruct (truthy (read file "url")), (truthy (read file "contentType"));
         (eexists; split; [done|]); repeat split; done. }
  js_read image.
  destruct (truthy (read file "url")), (truthy (read file "contentType"));
    (eexists; split; [done|]); repeat split; done.
Qed.

Lemma toImage_fields_witness :
  ∃ data,
    toImage (VObj [("id", VStr "i");
                   ("fields", VObj [("file", VObj [("url", VStr "u")])])])
      = Ok data ∧
    get data "url" = Ok (VStr "u") ∧ has data "size" = false.
Proof.
  destruct (toImage_fields
              (VObj [("id", VStr "i");
                     ("fields", VObj [("file", VObj [("url", VStr "u")])])]))
    as [(data & Hdata & _ & _ & _ & _ & Hsize & _ & _ & Hurl & _) _];
    [reflexivity|].
  exists data. split; [exact Hdata|]. split; [|exact Hsize].
  apply Hurl. reflexivity.
Defined.

(** C8, as stated, fails: on the file of the example, which has [details]
    and no [size], the result has a [size] key. *)
Lemma toImage_sets_size :
  let raw :=
    VObj [("fields",
           VObj [("file",
                  VObj [("url", VStr "u");
                        ("details",
                         VObj [("image",
                                VObj [("width", VNum 10);
                                      ("height", VNum 20)])])])])] in
  let data :=
    VObj [("id", VUndefined); ("url", VStr "u"); ("size", VUndefined);
          ("width", VNum 10); ("height", VNum 20)] in
  toImage raw = Ok data ∧
  has data "size" = true ∧ has data "contentType" = false.
Proof. repeat split; vm_compute; reflexivity. Qed.

(** ** Parents of categories *)

Lemma toCategory_raw_chain n : toCategory (raw_chain n) = Ok (chain n).
Proof.
  induction n as [|n IH]; [reflexivity|].
  rewrite toCategory_fields by done. simpl.
  repeat (rewrite read_obj; simpl).
  assert (truthy (raw_chain n) = true) as -> by by destruct n.
  by rewrite IH.
Qed.

(** C9, as the code has it.  The [parent] of a normalized category, when
    present, is a fully formed [CategoryEntity]: it is the normal form of
    the raw [fields.parent], which [toCategory] computes by calling itself.
    The recursion follows the raw parents as deep as the payload nests them:
    a raw category [n] parents deep has a normal form [n] parents deep. *)
Theorem toCategory_parent (entity : value) (n : nat) :
  truthy entity = true →
  let parent := read (read entity "fields") "parent" in
  (∃ data,
     toCategory entity = Ok data ∧ CategoryEntity data ∧
     has data "parent" = truthy parent ∧
     (truthy parent = true →
      ∃ parent', toCategory parent = Ok parent' ∧ CategoryEntity parent' ∧
                 get data "parent" = Ok parent')) ∧
  toCategory (raw_chain n) = Ok (chain n).
Proof.
  intros He parent. split; [|apply toCategory_raw_chain].
  destruct (toCategory_entity entity He) as (data & Hdata & Hentity).
  exists data. split; [done|]. split; [done|]. revert Hdata.
  destruct (truthy (read entity "fields")) eqn:Hfields.
  - rewrite toCategory_fields by done. simpl. fold parent.
    destruct (truthy parent) eqn:Hparent.
    + destruct (toCategory_entity parent Hparent) as (parent' & -> & Hp).
      simpl. intros [= <-]. split; [done|]. intros _. by exists parent'.
    + by intros [= <-].
  - rewrite toCategory_no_fields by done. intros [= <-].
    subst parent. by rewrite (read_falsy _ _ Hfields).
Qed.

Lemma toCategory_parent_witness :
  toCategory (raw_chain 1) = Ok (chain 1) ∧
  ∃ data, toCategory (raw_chain 1) = Ok data ∧ has data "parent" = true.
Proof.
  destruct (toCategory_parent (raw_chain 1) 1) as [(data & Hdata & _ & Hp & _) H];
    [reflexivity|].
  split; [exact H|]. exists data. split; [exact Hdata|exact Hp].
Defined.

(** C9, as stated, fails: for a raw category two parents deep, the parent of
    the parent on the result is the normal form of the raw grandparent, with
    [name] and [slug] lifted out of its [fields]. *)
Lemma toCategory_grandparent :
  let grandparent :=
    VObj [("id", VStr "g"); ("fields", VObj [("name", VStr "G")])] in
  let parent :=
    VObj [("id", VStr "p");
          ("fields", VObj [("name", VStr "P"); ("parent", grandparent)])] in
  let raw :=
    VObj [("id", VStr "c");
          ("fields", VObj [("name", VStr "C"); ("parent", parent)])] in
  toCategory raw ≫= (λ data, path data ["parent"; "parent"])
    = Ok (VObj [("id", VStr "g"); ("name", VStr "G"); ("slug", VUndefined)]) ∧
  toCategory raw ≫= (λ data, path data ["parent"; "parent"])
    = toCategory grandparent ∧
  path raw ["fields"; "parent"; "fields"; "parent"] = Ok grandparent.
Proof. repeat split; vm_compute; reflexivity. Qed.

(** * Further properties of the normalization layer *)

(** ** Closed forms *)

Lemma get_read_nullish v k : nullish v = false → get v k = Ok (read v k).
Proof. unfold read. by destruct v. Qed.

Lemma toImage_closed entity :
  truthy entity = true →
  let file := read (read entity "fields") "file" in
  let details := read file "details" in
  let image := read details "image" in
  toImage entity =
    Ok (VObj ([("id", read entity "id")]
              ++ (if truthy (read file "url")
                  then [("url", read file "url")] else [])
              ++ (if truthy (read file "contentType")
                  then [("contentType", read file "contentType")] else [])
              ++ (if truthy details
                  then ("size", read details "size")
                       :: (if truthy image
                           then [("width", read image "width");
                                 ("height", read image "height")]
                           else [])
                  else []))).
Proof.
  intros He file details image.
  unfold toImage, path. rewrite He. simpl. js_read entity.
  destruct (truthy (read entity "fields")) eqn:Hfields.
  2: { subst image details file. by rewrite (read_falsy _ "file" Hfields). }
  js_read (read entity "fields"). fold file.
  destruct (truthy file) eqn:Hfile.
  2: { subst image details. by rewrite !(read_falsy file). }
  js_read file. fold details.
  destruct (truthy details) eqn:Hdetails.
  2: { by destruct (truthy (read file "url")),
          (truthy (read file "contentType")). }
  js_read details. fold image.
  destruct (truthy image) eqn:Himage.
  2: { by destruct (truthy (read file "url")),
          (truthy (read file "contentType")). }
  js_read image.
  by destruct (truthy (read file "url")), (truthy (read file "contentType")).
Qed.

Lemma toArticle_closed entity :
  truthy entity = true → nullish (read entity "fields") = false →
  let fields := read entity "fields" in
  ∃ category image,
    toCategory (read fields "category") = Ok category ∧
    toImage (read fields "image") = Ok image ∧
    toArticle entity =
      Ok (VObj ([("id", read entity "id");
                 ("createdAt", read entity "createdAt");
                 ("updatedAt", read entity "updatedAt");
                 ("title", read fields "title");
                 ("slug", read fields "slug");
                 ("summary", read fields "summary");
                 ("countViews", or_ (read fields "countViews") (VNum 1))]
                ++ (if truthy (read fields "text")
                    then [("text", read fields "text")] else [])
                ++ (if truthy (read fields "category")
                    then [("category", category)] else [])
                ++ (if truthy (read fields "image")
                    then [("image", image)] else []))).
Proof.
  intros He Hfields fields.
  destruct (toCategory_total (read fields "category")) as [category Hcategory].
  destruct (toImage_total (read fields "image")) as [image Himage].
  exists category, image. split; [done|]. split; [done|].
  unfold toArticle, path. rewrite He. simpl. js_read entity. fold fields.
  rewrite !(get_read_nullish fields) by done. simpl.
  rewrite Hcategory, Himage.
  by destruct (truthy (read fields "text")), (truthy (read fields "category")),
    (truthy (read fields "image")).
Qed.

Lemma toArticle_nullish_fields entity :
  truthy entity = true → nullish (read entity "fields") = true →
  toArticle entity = Err TypeError.
Proof.
  intros He Hfields. unfold toArticle, path. rewrite He. simpl. js_read entity.
  by destruct (read entity "fields").
Qed.

Lemma toArticle_falsy entity :
  truthy entity = false → toArticle entity = Ok VNull.
Proof. intros H. unfold toArticle. by rewrite H. Qed.

Lemma toImage_falsy entity : truthy entity = false → toImage entity = Ok VNull.
Proof. intros H. unfold toImage. by rewrite H. Qed.

Lemma toCategory_object entity :
  truthy entity = true → ∃ props, toCategory entity = Ok (VObj props).
Proof.
  intros He. destruct (toCategory_entity entity He) as (data & -> & Hdata).
  destruct Hdata. eauto.
Qed.

(** ** Entities: null, throws, keys *)

(** X1.  [toCategory], [toImage] and [toArticle] return [null] exactly on a
    falsy raw value ([undefined], [null], [0], [''], [false]): a [null] in
    a result always stands for a raw item that was not there. *)
Theorem normalized_null_iff (entity : value) :
  (toCategory entity = Ok VNull ↔ truthy entity = false) ∧
  (toImage entity = Ok VNull ↔ truthy entity = false) ∧
  (toArticle entity = Ok VNull ↔ truthy entity = false).
Proof.
  destruct (truthy entity) eqn:He.
  - split; [|split]; (split; [|done]); intros H; exfalso.
    + destruct (toCategory_object entity He) as [props Hp]. congruence.
    + rewrite (toImage_closed entity He) in H. discriminate H.
    + destruct (nullish (read entity "fields")) eqn:Hf.
      * rewrite (toArticle_nullish_fields entity He Hf) in H. discriminate H.
      * destruct (toArticle_closed entity He Hf) as (c & i & _ & _ & Ha).
        rewrite Ha in H. discriminate H.
  - by rewrite toCategory_falsy, toImage_falsy, toArticle_falsy.
Qed.

(** X2.  [toArticle] throws exactly when the raw value is truthy and its
    [fields] is [undefined] or [null], and what it throws is a [TypeError];
    nothing nested in [fields], however malformed, makes it throw. *)
Theorem toArticle_throws_iff (entity : value) (e : error) :
  toArticle entity = Err e ↔
  e = TypeError ∧ truthy entity = true ∧ nullish (read entity "fields") = true.
Proof.
  destruct (truthy entity) eqn:He.
  - destruct (nullish (read entity "fields")) eqn:Hf.
    + rewrite (toArticle_nullish_fields entity He Hf).
      split; [by intros [= <-]|by intros (-> & _)].
    + destruct (toArticle_closed entity He Hf) as (c & i & _ & _ & ->).
      split; [done|by intros (_ & _ & ?)].
  - rewrite toArticle_falsy by done. split; [done|by intros (_ & ? & _)].
Qed.

(** X3.  The keys of a normalized entity depend on the truthiness of the raw
    fields only, and are never other than these: [id], [name], [slug],
    [parent] for a category; [id], [url], [contentType], [size], [width],
    [height] for an image; the seven fields of the literal, then [text],
    [category], [image] for an article.  No other field of the raw payload
    is carried over. *)
Theorem normalized_keys (entity : value) :
  truthy entity = true →
  let fields := read entity "fields" in
  let file := read fields "file" in
  let details := read file "details" in
  (∃ data, toCategory entity = Ok data ∧
     keys data =
       "id" :: (if truthy fields
                then "name" :: "slug"
                     :: (if truthy (read fields "parent") then ["parent"] else [])
                else [])) ∧
  (∃ data, toImage entity = Ok data ∧
     keys data =
       ("id" :: (if truthy (read file "url") then ["url"] else [])
             ++ (if truthy (read file "contentType") then ["contentType"] else [])
             ++ (if truthy details
                 then "size" :: (if truthy (read details "image")
                                 then ["width"; "height"] else [])
                 else []))%list) ∧
  (nullish fields = false →
   ∃ data, toArticle entity = Ok data ∧
     keys data =
       (["id"; "createdAt"; "updatedAt"; "title"; "slug"; "summary";
         "countViews"]
        ++ (if truthy (read fields "text") then ["text"] else [])
        ++ (if truthy (read fields "category") then ["category"] else [])
        ++ (if truthy (read fields "image") then ["image"] else []))%list).
Proof.
  intros He fields file details. split; [|split].
  - destruct (truthy fields) eqn:Hf.
    + rewrite toCategory_fields by done. simpl. fold fields.
      destruct (truthy (read fields "parent")) eqn:Hp; [|by eexists].
      destruct (toCategory_total (read fields "parent")) as [parent' ->].
      by eexists.
    + rewrite toCategory_no_fields by done. by eexists.
  - rewrite (toImage_closed entity He). fold fields file details.
    eexists. split; [done|].
    by destruct (truthy (read file "url")), (truthy (read file "contentType")),
      (truthy details), (truthy (read details "image")).
  - intros Hf. destruct (toArticle_closed entity He Hf) as (c & i & _ & _ & ->).
    fold fields. eexists. split; [done|].
    by destruct (truthy (read fields "text")),
      (truthy (read fields "category")), (truthy (read fields "image")).
Qed.

Lemma normalized_keys_witness :
  ∃ data,
    toCategory (VObj [("id", VStr "c"); ("sys", VStr "x");
                      ("fields", VObj [("name", VStr "C"); ("extra", VNum 1)])])
      = Ok data ∧
    keys data = ["id"; "name"; "slug"].
Proof.
  destruct (normalized_keys
              (VObj [("id", VStr "c"); ("sys", VStr "x");
                     ("fields", VObj [("name", VStr "C"); ("extra", VNum 1)])]))
    as [(data & Hdata & Hkeys) _]; [reflexivity|].
  exists data. split; [exact Hdata|exact Hkeys].
Defined.

(** X4.  The [countViews] of a normalized article is always truthy: it is
    the raw one when that is truthy (a negative count is kept) and [1]
    otherwise; and [text] is a key exactly when the raw text is truthy, so a
    normalized article never has an empty text. *)
Theorem article_views_and_text (entity : value) :
  truthy entity = true → nullish (read entity "fields") = false →
  let fields := read entity "fields" in
  ∃ data views,
    toArticle entity = Ok data ∧
    get data "countViews" = Ok views ∧ truthy views = true ∧
    (truthy (read fields "countViews") = true →
     views = read fields "countViews") ∧
    (truthy (read fields "countViews") = false → views = VNum 1) ∧
    has data "text" = truthy (read fields "text") ∧
    (truthy (read fields "text") = true →
     get data "text" = Ok (read fields "text")).
Proof.
  intros He Hf fields.
  destruct (toArticle_closed entity He Hf) as (c & i & _ & _ & ->). fold fields.
  eexists; exists (or_ (read fields "countViews") (VNum 1)).
  split; [done|]. unfold or_.
  by destruct (truthy (read fields "countViews")) eqn:Hviews,
    (truthy (read fields "text")), (truthy (read fields "category")),
    (truthy (read fields "image")).
Qed.

Lemma article_views_and_text_witness :
  ∃ data,
    toArticle (VObj [("id", VStr "1");
                     ("fields", VObj [("countViews", VNum 0);
                                      ("text", VStr "")])]) = Ok data ∧
    get data "countViews" = Ok (VNum 1) ∧ has data "text" = false.
Proof.
  destruct (article_views_and_text
              (VObj [("id", VStr "1");
                     ("fields", VObj [("countViews", VNum 0);
                                      ("text", VStr "")])]))
    as (data & views & Hdata & Hviews & _ & _ & Hone & Htext & _);
    [reflexivity..|].
  exists data. split; [exact Hdata|]. split; [|exact Htext].
  rewrite Hviews, Hone; reflexivity.
Defined.

(** X5.  [category] and [image] are keys of a normalized article exactly
    when the raw field is truthy, and they then hold the normal form of that
    field: a category that is a fully formed [CategoryEntity] and an image
    that carries [id].  They are never [null]. *)
Theorem article_relations (entity : value) :
  truthy entity = true → nullish (read entity "fields") = false →
  let fields := read entity "fields" in
  ∃ data,
    toArticle entity = Ok data ∧
    has data "category" = truthy (read fields "category") ∧
    has data "image" = truthy (read fields "image") ∧
    (truthy (read fields "category") = true →
     ∃ category, toCategory (read fields "category") = Ok category ∧
                 get data "category" = Ok category ∧ CategoryEntity category) ∧
    (truthy (read fields "image") = true →
     ∃ image, toImage (read fields "image") = Ok image ∧
              get data "image" = Ok image ∧ has image "id" = true).
Proof.
  intros He Hf fields.
  destruct (toArticle_closed entity He Hf) as (c & i & Hc & Hi & ->).
  fold fields in Hc, Hi |- *. eexists. split; [done|].
  destruct (truthy (read fields "category")) eqn:Hcategory,
    (truthy (read fields "image")) eqn:Himage,
    (truthy (read fields "text"));
    (split; [done|]); (split; [done|]); (split; [|]); try done; intros _.
  all: try (exists c; split; [done|]; split; [done|];
            destruct (toCategory_entity _ Hcategory) as (c' & Hc' & Hentity);
            congruence).
  all: exists i; split; [done|]; split; [done|];
    rewrite (toImage_closed _ Himage) in Hi; by injection Hi as <-.
Qed.

Lemma article_relations_witness :
  ∃ data,
    toArticle (VObj [("id", VStr "1");
                     ("fields", VObj [("category", VObj [("id", VStr "c")])])])
      = Ok data ∧
    get data "category" = Ok (VObj [("id", VStr "c")]) ∧
    has data "image" = false.
Proof.
  destruct (article_relations
              (VObj [("id", VStr "1");
                     ("fields", VObj [("category", VObj [("id", VStr "c")])])]))
    as (data & Hdata & _ & Himage & Hcategory & _); [reflexivity..|].
  exists data. split; [exact Hdata|]. split; [|exact Himage].
  destruct Hcategory as (category & Hc & Hget & _); [reflexivity|].
  rewrite Hget, <- Hc. reflexivity.
Defined.

(** ** Collections: shape, items, throws *)

Lemma mapM_toCategory_pointwise items :
  ∃ categories,
    mapM toCategory items = Ok categories ∧
    Forall2 (λ raw category,
               if truthy raw then CategoryEntity category else category = VNull)
      items categories.
Proof.
  induction items as [|raw items (categories & IH & Hcs)]; simpl.
  - by exists [].
  - destruct (truthy raw) eqn:Hraw.
    + destruct (toCategory_entity raw Hraw) as (category & -> & Hc). simpl.
      rewrite IH. simpl. eexists. split; [done|]. constructor; [|done].
      by rewrite Hraw.
    + rewrite (toCategory_falsy raw Hraw). simpl. rewrite IH. simpl.
      eexists. split; [done|]. constructor; [|done]. by rewrite Hraw.
Qed.

(** X6.  On a collection whose [items] is an array [toCategories] never
    throws: it returns as many items as the raw array has, in place, a
    fully formed [CategoryEntity] for each truthy raw item and [null] for
    each falsy one; no item is dropped. *)
Theorem toCategories_pointwise (props : list (string * value))
    (items : list value) :
  own "items" props = Some (VArr items) →
  ∃ categories,
    toCategories (VObj props) = Ok (collection_of 0 categories) ∧
    length categories = length items ∧
    Forall2 (λ raw category,
               if truthy raw then CategoryEntity category else category = VNull)
      items categories.
Proof.
  intros Hitems.
  destruct (mapM_toCategory_pointwise items) as (categories & Hmap & Hcs).
  exists categories. rewrite (toCategories_items _ _ Hitems), Hmap.
  split; [done|]. split; [|done]. symmetry. by eapply Forall2_length.
Qed.

Lemma toCategories_pointwise_witness :
  toCategories (VObj [("items", VArr [VNull; VObj [("id", VStr "c")]])])
  = Ok (collection_of 0 [VNull; VObj [("id", VStr "c")]]).
Proof.
  destruct (toCategories_pointwise
              [("items", VArr [VNull; VObj [("id", VStr "c")]])]
              [VNull; VObj [("id", VStr "c")]])
    as (categories & Hc & _); [reflexivity|].
  rewrite Hc. vm_compute in Hc. injection Hc as <-. reflexivity.
Defined.

Lemma toArticle_cases raw :
  (truthy raw = true ∧ nullish (read raw "fields") = true ∧
   toArticle raw = Err TypeError) ∨
  (¬ (truthy raw = true ∧ nullish (read raw "fields") = true) ∧
   ∃ article, toArticle raw = Ok article).
Proof.
  destruct (truthy raw) eqn:Hraw.
  - destruct (nullish (read raw "fields")) eqn:Hf.
    + left. by rewrite toArticle_nullish_fields.
    + right. split; [by intros [_ ?]|].
      destruct (toArticle_closed raw Hraw Hf) as (c & i & _ & _ & ->). eauto.
  - right. split; [by intros [? _]|]. rewrite toArticle_falsy by done. eauto.
Qed.

Lemma mapM_toArticle_Err items e :
  mapM toArticle items = Err e ↔
  e = TypeError ∧
  Exists (λ raw, truthy raw = true ∧ nullish (read raw "fields") = true) items.
Proof.
  induction items as [|raw items IH]; simpl.
  - split; [done|]. intros [_ H]. inversion H.
  - destruct (toArticle_cases raw) as [(Ht & Hf & ->)|[Hnot [article ->]]]; simpl.
    + split; [intros [= <-]; split; [done|by left]|by intros [-> _]].
    + destruct (mapM toArticle items) as [articles|e'] eqn:Hmap; simpl.
      * split; [intros H; discriminate H|]. intros [He Hex].
        apply Exists_cons in Hex as [?|Hex]; [done|].
        by specialize (proj2 IH (conj He Hex)).
      * split.
        -- intros [= <-]. destruct (proj1 IH eq_refl) as [-> Hex].
           split; [done|by right].
        -- intros [-> Hex]. apply Exists_cons in Hex as [?|Hex]; [done|].
           by rewrite (proj2 IH (conj eq_refl Hex)).
Qed.

(** X7.  [toArticles] and [toCategories] throw only a [TypeError], and only
    on a collection whose [items] is truthy: [toCategories] exactly when
    that [items] is not an array, [toArticles] also when the array holds a
    truthy item whose [fields] is [undefined] or [null]. *)
Theorem collections_throw_iff (collection : value) (e : error) :
  let items := read collection "items" in
  (toCategories collection = Err e ↔
   e = TypeError ∧ truthy collection = true ∧ truthy items = true ∧
   is_array items = false) ∧
  (toArticles collection = Err e ↔
   e = TypeError ∧ truthy collection = true ∧ truthy items = true ∧
   (is_array items = false ∨
    ∃ raws, items = VArr raws ∧
            Exists (λ raw, truthy raw = true ∧
                           nullish (read raw "fields") = true) raws)).
Proof.
  intros items. unfold toCategories, toArticles.
  destruct (truthy collection) eqn:Hc; simpl.
  2: { split; (split; [done|by intros (_ & ? & _)]). }
  js_read collection. fold items.
  destruct (truthy items) eqn:Hi; simpl.
  2: { split; (split; [done|by intros (_ & _ & ? & _)]). }
  destruct items as [| | | | |raws|]; simpl; try done.
  all: try (split; (split; [intros [= <-]; repeat split; auto
                           |intros [-> _]; reflexivity])).
  split.
  - destruct (mapM_toCategory_pointwise raws) as (categories & -> & _). simpl.
    split; [intros H; discriminate H|intros (_ & _ & _ & H); discriminate H].
  - destruct (mapM toArticle raws) as [articles|e'] eqn:Hmap; simpl.
    + split; [intros H; discriminate H|].
      intros (-> & _ & _ & [H|(raws' & [= <-] & Hex)]); [discriminate H|].
      pose proof (proj2 (mapM_toArticle_Err raws TypeError) (conj eq_refl Hex))
        as H.
      rewrite Hmap in H. discriminate H.
    + split.
      * intros [= <-]. apply mapM_toArticle_Err in Hmap as [-> Hex].
        repeat split; try done. right. by exists raws.
      * intros (-> & _). by apply mapM_toArticle_Err in Hmap as [-> _].
Qed.

Lemma toArticles_shape collection data :
  toArticles collection = Ok data →
  ∃ total items,
    data = VObj [("total", total); ("items", VArr items)] ∧
    (total = VNum 0 ∨ truthy total = true) ∧ (total = VNum 0 ∨ items = []).
Proof.
  unfold toArticles. destruct (truthy collection) eqn:Hc; simpl.
  2: { intros [= <-]; eexists _, _; eauto. }
  js_read collection.
  destruct (truthy (read collection "items")) eqn:Hi; simpl.
  - destruct (read collection "items") as [| | | | |raws|]; simpl; try done.
    destruct (mapM toArticle raws); simpl; [|done].
    intros [= <-]; eexists _, _; eauto.
  - unfold or_. destruct (truthy (read collection "total")) eqn:Ht;
      intros [= <-]; eexists _, _; eauto.
Qed.

Lemma toCategories_shape collection data :
  toCategories collection = Ok data →
  ∃ total items,
    data = VObj [("total", total); ("items", VArr items)] ∧
    (total = VNum 0 ∨ truthy total = true) ∧ (total = VNum 0 ∨ items = []).
Proof.
  unfold toCategories. destruct (truthy collection) eqn:Hc; simpl.
  2: { intros [= <-]; eexists _, _; eauto. }
  js_read collection.
  destruct (truthy (read collection "items")) eqn:Hi; simpl.
  - destruct (read collection "items") as [| | | | |raws|]; simpl; try done.
    destruct (mapM toCategory raws); simpl; [|done].
    intros [= <-]; eexists _, _; eauto.
  - unfold or_. destruct (truthy (read collection "total")) eqn:Ht;
      intros [= <-]; eexists _, _; eauto.
Qed.

(** X8.  What [toArticles] and [toCategories] return is always an object
    with exactly the keys [total] and [items], the latter an array; [total]
    is never [undefined] or [null], and it is other than [0] only when the
    items are empty. *)
Theorem collections_shape (collection data : value) :
  toArticles collection = Ok data ∨ toCategories collection = Ok data →
  ∃ total items,
    data = VObj [("total", total); ("items", VArr items)] ∧
    (total = VNum 0 ∨ truthy total = true) ∧
    (total = VNum 0 ∨ items = []).
Proof.
  intros [H|H]; [by apply (toArticles_shape collection)
                |by apply (toCategories_shape collection)].
Qed.

Lemma collections_shape_witness :
  ∃ total items,
    VObj [("total", VStr "many"); ("items", VArr [])]
    = VObj [("total", total); ("items", VArr items)] ∧
    (total = VNum 0 ∨ truthy total = true) ∧ (total = VNum 0 ∨ items = []).
Proof.
  apply (collections_shape (VObj [("total", VStr "many")])).
  left. reflexivity.
Defined.

(** * Further properties of the facade *)

(** ** Promises *)

Lemma run_then_ upstream p f :
  run upstream (then_ p f) = run upstream p ≫= f.
Proof.
  induction p as [[v|e]|contentType query continue IH]; simpl; [done..|].
  destruct (upstream contentType query); simpl; [apply IH|done].
Qed.

Lemma run_articles upstream query :
  run upstream (getArticles query)
  = upstream "article" (<["content_type" := VStr "article"]> query)
    ≫= toArticles.
Proof. simpl. by destruct (upstream _ _). Qed.

Lemma run_categories upstream query :
  run upstream (getCategories query)
  = upstream "category" (<["content_type" := VStr "category"]> query)
    ≫= toCategories.
Proof. simpl. by destruct (upstream _ _). Qed.

Lemma requested_then_ p f : requested (then_ p f) = requested p.
Proof. by destruct p as [[v|e]|]. Qed.

Lemma asks_once_then_ p f : asks_once p → asks_once (then_ p f).
Proof.
  destruct p as [[v|e]|contentType query continue]; simpl; [done..|].
  intros Hp raw. destruct (Hp raw) as [[v|e] ->]; simpl; eauto.
Qed.

Lemma asks_for_then_ contentType p f :
  asks_for contentType p → asks_for contentType (then_ p f).
Proof. unfold asks_for. by rewrite requested_then_. Qed.

Lemma asks_once_getArticles query : asks_once (getArticles query).
Proof. intros raw. simpl. eauto. Qed.

Lemma asks_once_getCategories query : asks_once (getCategories query).
Proof. intros raw. simpl. eauto. Qed.

Lemma asks_for_getArticles query : asks_for "article" (getArticles query).
Proof. intros contentType q [= <- <-]. split; [done|]. apply lookup_insert_eq. Qed.

Lemma asks_for_getCategories query : asks_for "category" (getCategories query).
Proof. intros contentType q [= <- <-]. split; [done|]. apply lookup_insert_eq. Qed.

Lemma asks_for_reject contentType e : asks_for contentType (reject e).
Proof. by intros contentType' q. Qed.

Lemma run_rejected upstream p contentType query e :
  requested p = Some (contentType, query) →
  upstream contentType query = Err e → run upstream p = Err e.
Proof. destruct p; simpl; [done|]. intros [= <- <-] H. by rewrite H. Qed.

(** ** The methods, by cases on their guard *)

Lemma article_cases filter :
  article filter = reject invalid_filter ∨
  ∃ query, article filter = then_ (getArticles query) first_or_null.
Proof.
  destruct (item_filter_cases filter) as [[Hi _]|(Hv & _)].
  - left. by apply article_invalid.
  - right. rewrite (article_valid _ Hv). eauto.
Qed.

Lemma category_cases filter :
  category filter = reject invalid_filter ∨
  ∃ query, category filter = then_ (getCategories query) first_or_null.
Proof.
  destruct (item_filter_cases filter) as [[Hi _]|(Hv & _)].
  - left. by apply category_invalid.
  - right. rewrite (category_valid _ Hv). eauto.
Qed.

Lemma articles_invalid filter :
  truthy filter = false → articles filter = reject invalid_filter.
Proof. intros H. unfold articles. by rewrite H. Qed.

Lemma articles_valid filter :
  truthy filter = true →
  ∃ query order,
    articles filter = getArticles query ∧
    query !! "order" = Some order ∧ order ∈ sort_keys.
Proof.
  intros Hf. unfold articles. rewrite Hf. simpl. js_read filter.
  generalize (read filter "limit") (read filter "order")
    (read filter "categoryId") (read filter "categorySlug").
  intros limit order categoryId categorySlug. unfold sort_keys.
  destruct (is_str order "createdAt"), (is_str order "countViews"),
    (is_str order "-countViews"), (truthy categoryId), (truthy categorySlug);
    eexists _, _; (split; [reflexivity|]); (split; [reflexivity|]); listed.
Qed.

(** ** Article lists: the guard and the order *)

(** X9.  [articles] and [articlesList] reject with the invalid-filter error
    exactly when the filter is falsy, and then ask nothing of the
    collaborator; any other filter, the empty object included, leads to one
    request for articles. *)
Theorem articles_guard (filter : value) :
  (articles filter = reject invalid_filter ↔ truthy filter = false) ∧
  (articlesList filter = reject invalid_filter ↔ truthy filter = false) ∧
  (truthy filter = true →
   ∃ query,
     requested (articles filter) = Some ("article", query) ∧
     requested (articlesList filter) = Some ("article", query)).
Proof.
  unfold articlesList. destruct (truthy filter) eqn:Hf.
  - destruct (articles_valid filter Hf) as (query & order & -> & _).
    split; [done|]. split; [done|]. intros _. by eexists.
  - rewrite (articles_invalid filter Hf). done.
Qed.

Lemma articles_guard_witness :
  ∃ query, requested (articlesList (VObj [])) = Some ("article", query).
Proof.
  destruct (articles_guard (VObj [])) as (_ & _ & H).
  destruct H as (query & _ & H); [reflexivity|].
  exists query. exact H.
Defined.

(** X10.  Whatever the filter holds as [order], the [order] of the query
    that [articles] sends is one of the four backend sort keys: a value of
    the caller never reaches the query's [order]. *)
Theorem articles_order_closed (filter : value) (contentType : string)
    (query : gmap string value) :
  requested (articles filter) = Some (contentType, query) →
  ∃ order, query !! "order" = Some order ∧ order ∈ sort_keys.
Proof.
  destruct (truthy filter) eqn:Hf.
  - destruct (articles_valid filter Hf) as (q & order & -> & Horder & Hin).
    simpl. intros [= <- <-]. exists order. split; [|done].
    by rewrite lookup_insert_ne.
  - by rewrite (articles_invalid filter Hf).
Qed.

Lemma articles_order_closed_witness :
  ∃ order query,
    requested (articles (VObj [("order", VStr "sys.id; drop")]))
      = Some ("article", query) ∧
    query !! "order" = Some order ∧ order ∈ sort_keys.
Proof.
  destruct (articles_order_closed
              (VObj [("order", VStr "sys.id; drop")]) "article"
              {[ "content_type" := VStr "article";
                 "order" := VStr "-sys.createdAt";
                 "select" := VStr list_select; "limit" := VUndefined ]})
    as (order & Horder & Hin); [reflexivity|].
  eexists order, _. split; [reflexivity|]. split; [exact Horder|exact Hin].
Defined.

(** ** Requests *)

(** X11.  Every request of the facade is for the content type of its method,
    ['article'] for [article], [articles] and [articlesList], ['category']
    for the category methods, never ['file'], and the query carries the same
    content type, so the cache partition and the query always agree. *)
Theorem requests_content_type (filter : value) (limit : Z) :
  Forall (asks_for "article")
    [article filter; articles filter; articlesList filter] ∧
  Forall (asks_for "category")
    [category filter; mainCategories limit; rootCategories; allCategories].
Proof.
  split; repeat apply Forall_cons_2; try apply Forall_nil_2;
    unfold articlesList, mainCategories, rootCategories, allCategories,
      getCategoriesList;
    repeat apply asks_for_then_;
    try apply asks_for_getCategories.
  - destruct (article_cases filter) as [->|[query ->]];
      [apply asks_for_reject|apply asks_for_then_, asks_for_getArticles].
  - destruct (truthy filter) eqn:Hf.
    + destruct (articles_valid filter Hf) as (query & order & -> & _).
      apply asks_for_getArticles.
    + rewrite articles_invalid by done. apply asks_for_reject.
  - destruct (truthy filter) eqn:Hf.
    + destruct (articles_valid filter Hf) as (query & order & -> & _).
      apply asks_for_getArticles.
    + rewrite articles_invalid by done. apply asks_for_reject.
  - destruct (category_cases filter) as [->|[query ->]];
      [apply asks_for_reject|apply asks_for_then_, asks_for_getCategories].
Qed.

Lemma requests_content_type_witness :
  let query : gmap string value :=
    {[ "content_type" := VStr "category"; "order" := VStr "fields.slug";
       "limit" := VNum 15 ]} in
  "category" = "category" ∧ query !! "content_type" = Some (VStr "category").
Proof.
  intros query. destruct (requests_content_type VNull 5) as [_ H].
  apply Forall_cons_1 in H as [_ H]. apply Forall_cons_1 in H as [H _].
  apply (H "category" query). reflexivity.
Defined.

(** X12.  No method of the facade asks the collaborator more than once:
    after the answer to its request the promise is settled, with no second
    fetch, no retry and no paging.  When the collaborator rejects the
    request, the method rejects with the same error. *)
Theorem requests_single (filter : value) (limit : Z)
    (upstream : string → gmap string value → result value) :
  Forall (λ p, asks_once p ∧
               ∀ contentType query e,
                 requested p = Some (contentType, query) →
                 upstream contentType query = Err e →
                 run upstream p = Err e)
    [article filter; articles filter; articlesList filter; category filter;
     mainCategories limit; rootCategories; allCategories].
Proof.
  repeat apply Forall_cons_2; try apply Forall_nil_2;
    (split; [|intros contentType query e; apply run_rejected]).
  - destruct (article_cases filter) as [->|[query ->]];
      [done|apply asks_once_then_, asks_once_getArticles].
  - destruct (truthy filter) eqn:Hf.
    + destruct (articles_valid filter Hf) as (query & order & -> & _).
      apply asks_once_getArticles.
    + by rewrite articles_invalid.
  - apply asks_once_then_. destruct (truthy filter) eqn:Hf.
    + destruct (articles_valid filter Hf) as (query & order & -> & _).
      apply asks_once_getArticles.
    + by rewrite articles_invalid.
  - destruct (category_cases filter) as [->|[query ->]];
      [done|apply asks_once_then_, asks_once_getCategories].
  - do 2 apply asks_once_then_. apply asks_once_getCategories.
  - apply asks_once_then_, asks_once_getCategories.
  - apply asks_once_getCategories.
Qed.

Lemma requests_single_witness :
  run (λ _ _, Err (Error "offline")) (category (VObj [("id", VStr "c")]))
  = Err (Error "offline").
Proof.
  pose proof (requests_single (VObj [("id", VStr "c")]) 0
                (λ _ _, Err (Error "offline"))) as H.
  do 3 apply Forall_cons_1 in H as [_ H]. apply Forall_cons_1 in H as [[_ H] _].
  eapply H; reflexivity.
Defined.

(** ** Category lists *)

Lemma toCategories_without_items props :
  own "items" props = None →
  ∃ total,
    toCategories (VObj props) = Ok (VObj [("total", total); ("items", VArr [])]).
Proof.
  intros Hitems. unfold toCategories. simpl. rewrite Hitems. simpl. eauto.
Qed.

(** X13.  [rootCategories] asks once for categories ordered by slug with
    [fields.parent: null] and [limit: 10], and resolves to every item of
    the answer, normalized in place: it does not check the parents itself
    and does not cut the list at ten.  An answer with no [items] resolves
    to the empty list. *)
Theorem rootCategories_spec
    (upstream : string → gmap string value → result value)
    (rprops : list (string * value)) (items : list value) :
  let query : gmap string value :=
    {[ "content_type" := VStr "category"; "order" := VStr "fields.slug";
       "fields.parent" := VNull; "limit" := VNum 10 ]} in
  requested rootCategories = Some ("category", query) ∧
  (upstream "category" query = Ok (VObj rprops) →
   (own "items" rprops = Some (VArr items) →
    ∃ categories,
      run upstream rootCategories = Ok (VArr categories) ∧
      length categories = length items ∧
      Forall2 (λ raw category, toCategory raw = Ok category) items categories) ∧
   (own "items" rprops = None → run upstream rootCategories = Ok (VArr []))).
Proof.
  intros query. split; [reflexivity|]. intros Hup.
  unfold rootCategories, getCategoriesList.
  rewrite run_then_, run_categories. fold query. rewrite Hup. simpl. split.
  - intros Hitems.
    destruct (mapM_toCategory_pointwise items) as (categories & Hmap & _).
    rewrite (toCategories_items _ _ Hitems), Hmap. simpl.
    exists categories. split; [done|]. apply mapM_Ok in Hmap.
    split; [|done]. symmetry. by eapply Forall2_length.
  - intros Hitems.
    by destruct (toCategories_without_items rprops Hitems) as [total ->].
Qed.

Lemma rootCategories_spec_witness :
  let raws := replicate 12 (VObj [("id", VStr "r")]) in
  ∃ categories,
    run (λ _ _, Ok (VObj [("items", VArr raws)])) rootCategories
      = Ok (VArr categories) ∧
    length categories = 12%nat.
Proof.
  intros raws.
  destruct (rootCategories_spec (λ _ _, Ok (VObj [("items", VArr raws)]))
              [("items", VArr raws)] raws) as [_ H].
  destruct H as [H _]; [reflexivity|].
  destruct H as (categories & Hrun & Hlen & _); [reflexivity|].
  exists categories. split; [exact Hrun|exact Hlen].
Defined.

(** X14.  [allCategories] asks once for categories ordered by slug with
    [limit: 100] and no other filter, and resolves to a collection that
    holds every item of the answer, normalized in place; for an answer
    with an [items] array the collection's [total] is [0], whatever total
    the answer reports. *)
Theorem allCategories_spec
    (upstream : string → gmap string value → result value)
    (rprops : list (string * value)) (items : list value) :
  let query : gmap string value :=
    {[ "content_type" := VStr "category"; "order" := VStr "fields.slug";
       "limit" := VNum 100 ]} in
  requested allCategories = Some ("category", query) ∧
  (upstream "category" query = Ok (VObj rprops) →
   own "items" rprops = Some (VArr items) →
   ∃ categories,
     run upstream allCategories = Ok (collection_of 0 categories) ∧
     length categories = length items ∧
     Forall2 (λ raw category, toCategory raw = Ok category) items categories).
Proof.
  intros query. split; [reflexivity|]. intros Hup Hitems.
  unfold allCategories. rewrite run_categories. fold query. rewrite Hup. simpl.
  destruct (mapM_toCategory_pointwise items) as (categories & Hmap & _).
  rewrite (toCategories_items _ _ Hitems), Hmap. simpl.
  exists categories. split; [done|]. apply mapM_Ok in Hmap.
  split; [|done]. symmetry. by eapply Forall2_length.
Qed.

Lemma allCategories_spec_witness :
  run (λ _ _, Ok (VObj [("total", VNum 250);
                         ("items", VArr [VObj [("id", VStr "a")]])]))
    allCategories
  = Ok (collection_of 0 [VObj [("id", VStr "a")]]).
Proof.
  destruct (allCategories_spec
              (λ _ _, Ok (VObj [("total", VNum 250);
                                ("items", VArr [VObj [("id", VStr "a")]])]))
              [("total", VNum 250); ("items", VArr [VObj [("id", VStr "a")]])]
              [VObj [("id", VStr "a")]]) as [_ H].
  destruct H as (categories & Hrun & _ & Hmap); [reflexivity..|].
  rewrite Hrun. apply mapM_Ok in Hmap. vm_compute in Hmap.
  injection Hmap as <-. reflexivity.
Defined.

(** ** Article lists: the items *)

(** X15.  [articlesList] is [articles] followed by the read of [items]:
    it rejects with whatever [articles] rejects with, and when it resolves
    it resolves to an array, the [items] of the collection that [articles]
    resolves to. *)
Theorem articlesList_items (filter : value)
    (upstream : string → gmap string value → result value) :
  (∀ e, run upstream (articles filter) = Err e →
        run upstream (articlesList filter) = Err e) ∧
  (∀ collection, run upstream (articles filter) = Ok collection →
     ∃ total items,
       collection = VObj [("total", total); ("items", VArr items)] ∧
       run upstream (articlesList filter) = Ok (VArr items)).
Proof.
  unfold articlesList. rewrite run_then_. split.
  - by intros e ->.
  - intros collection Hc. rewrite Hc. simpl.
    destruct (truthy filter) eqn:Hf.
    + destruct (articles_valid filter Hf) as (query & order & Ha & _).
      rewrite Ha, run_articles in Hc.
      destruct (upstream _ _) as [raw|]; simpl in Hc; [|done].
      destruct (toArticles_shape raw collection Hc) as (total & items & -> & _).
      by exists total, items.
    + by rewrite (articles_invalid filter Hf) in Hc.
Qed.

Lemma articlesList_items_witness :
  ∃ total items,
    collection_of 0 [] = VObj [("total", total); ("items", VArr items)] ∧
    run (λ _ _, Ok VNull) (articlesList (VObj [("limit", VNum 3)]))
      = Ok (VArr items).
Proof.
  destruct (articlesList_items (VObj [("limit", VNum 3)]) (λ _ _, Ok VNull))
    as [_ H].
  apply H. reflexivity.
Defined.

(** ** Main categories: negative limits and absent items *)

Lemma slice0_negative stop items :
  (stop < 0)%Z →
  slice0 stop items = take (length items - Z.to_nat (- stop)) items.
Proof.
  intros Hstop. unfold slice0.
  destruct (Z.ltb_spec stop 0) as [_|]; [|lia]. f_equal. lia.
Qed.

(** X16.  For a negative limit and an answer whose items are all present,
    [mainCategories] resolves to the normalized categories whose [parent] is
    present and has a non-empty [name], in order, except the last [-limit]
    of them, as [slice(0, limit)] counts a negative end from the end; the
    request is for [limit + 10] categories, the sum being the one of the
    code's numbers. *)
Theorem mainCategories_negative_limit (limit : Z)
    (upstream : string → gmap string value → result value)
    (rprops : list (string * value)) (items : list value) :
  let query : gmap string value :=
    {[ "content_type" := VStr "category"; "order" := VStr "fields.slug";
       "limit" := VNum (number_add limit 10) ]} in
  (limit < 0)%Z →
  upstream "category" query = Ok (VObj rprops) →
  own "items" rprops = Some (VArr items) →
  Forall (λ raw, truthy raw = true) items →
  requested (mainCategories limit) = Some ("category", query) ∧
  ((-9007199254740992 < limit + 10)%Z →
   number_add limit 10 = (limit + 10)%Z) ∧
  ∃ categories,
    Forall2 (λ raw category, toCategory raw = Ok category) items categories ∧
    let named := List.filter spec_named_parent categories in
    run upstream (mainCategories limit)
    = Ok (VArr (take (length named - Z.to_nat (- limit)) named)).
Proof.
  intros query Hlimit Hup Hitems Hraw. split; [reflexivity|].
  split; [intros; apply number_add_exact; lia|].
  destruct (mapM_toCategory items Hraw) as (categories & Hmap & Hcs).
  exists categories. split; [by apply mapM_Ok|].
  rewrite <- filter_keeps_spec.
  unfold mainCategories, getCategoriesList. rewrite !run_then_, run_categories.
  fold query. rewrite Hup. simpl.
  rewrite (toCategories_items _ _ Hitems), Hmap. simpl.
  rewrite filterM_keeps by done. simpl. by rewrite slice0_negative.
Qed.

Lemma mainCategories_negative_limit_witness :
  let parent := VObj [("id", VStr "p"); ("fields", VObj [("name", VStr "P")])] in
  let child (id : string) :=
    VObj [("id", VStr id); ("fields", VObj [("parent", parent)])] in
  let category (id : string) :=
    VObj [("id", VStr id); ("name", VUndefined); ("slug", VUndefined);
          ("parent", VObj [("id", VStr "p"); ("name", VStr "P");
                           ("slug", VUndefined)])] in
  let upstream := λ (_ : string) (query : gmap string value),
    match query !! "limit" with
    | Some (VNum 8) =>
        Ok (VObj [("items", VArr [child "a"; parent; child "b"; child "c";
                                  child "d"])])
    | _ => Err TypeError
    end in
  run upstream (mainCategories (-2)) = Ok (VArr [category "a"; category "b"]).
Proof.
  intros parent child category upstream.
  destruct (mainCategories_negative_limit (-2) upstream
              [("items", VArr [child "a"; parent; child "b"; child "c";
                               child "d"])]
              [child "a"; parent; child "b"; child "c"; child "d"])
    as (_ & _ & categories & Hmap & Hrun).
  - lia.
  - reflexivity.
  - reflexivity.
  - repeat constructor.
  - rewrite Hrun. apply mapM_Ok in Hmap. vm_compute in Hmap.
    injection Hmap as <-. reflexivity.
Defined.

Lemma has_named_parent_total item :
  nullish item = false → ∃ v, has_named_parent item = Ok v.
Proof.
  intros Hitem. unfold has_named_parent, path.
  destruct (get_total item "parent" Hitem) as [parent ->]. simpl.
  destruct (truthy parent) eqn:Ht; simpl; [|eauto].
  destruct (get_total parent "name" (truthy_not_nullish _ Ht)) as [name ->].
  eauto.
Qed.

Lemma filterM_null items categories :
  Forall2 (λ raw category,
             if truthy raw then CategoryEntity category else category = VNull)
    items categories →
  Exists (λ raw, truthy raw = false) items →
  filterM has_named_parent categories = Err TypeError.
Proof.
  induction 1 as [|raw category items categories Hc _ IH]; intros Hex;
    [inversion Hex|]. simpl.
  destruct (truthy raw) eqn:Hraw.
  - apply Exists_cons in Hex as [?|Hex]; [congruence|].
    destruct Hc as [props _ _].
    destruct (has_named_parent_total (VObj props) eq_refl) as [v ->]. simpl.
    by rewrite (IH Hex).
  - by subst category.
Qed.

(** X17.  When the answer holds a falsy item, say [null], [mainCategories]
    rejects with a [TypeError]: the item is normalized to [null] and the
    filter reads its [parent].  The methods that do no filtering resolve on
    the same answer, with [null] in place. *)
Theorem mainCategories_null_item (limit : Z)
    (upstream : string → gmap string value → result value)
    (rprops : list (string * value)) (items : list value) :
  (∀ contentType query, upstream contentType query = Ok (VObj rprops)) →
  own "items" rprops = Some (VArr items) →
  Exists (λ raw, truthy raw = false) items →
  run upstream (mainCategories limit) = Err TypeError ∧
  ∃ categories,
    run upstream rootCategories = Ok (VArr categories) ∧
    run upstream allCategories = Ok (collection_of 0 categories) ∧
    VNull ∈ categories.
Proof.
  intros Hup Hitems Hex.
  destruct (mapM_toCategory_pointwise items) as (categories & Hmap & Hcs).
  unfold mainCategories, rootCategories, allCategories, getCategoriesList.
  rewrite !run_then_, !run_categories, !Hup. simpl.
  rewrite (toCategories_items _ _ Hitems), Hmap. simpl.
  rewrite (filterM_null items categories Hcs Hex). split; [done|].
  exists categories. split; [done|]. split; [done|].
  clear -Hcs Hex. induction Hcs as [|raw category items categories Hc _ IH];
    [inversion Hex|].
  apply Exists_cons in Hex as [Hraw|Hex].
  - rewrite Hraw in Hc. subst category. apply list_elem_of_here.
  - apply list_elem_of_further. by apply IH.
Qed.

Lemma mainCategories_null_item_witness :
  run (λ _ _, Ok (VObj [("items", VArr [VNull])])) (mainCategories 5)
  = Err TypeError.
Proof.
  apply (mainCategories_null_item 5 (λ _ _, Ok (VObj [("items", VArr [VNull])]))
           [("items", VArr [VNull])] [VNull]).
  - intros; reflexivity.
  - reflexivity.
  - apply Exists_cons_hd. reflexivity.
Defined.

(** ** Single-item lookups: what they resolve to *)

Lemma first_or_null_items total items :
  first_or_null (VObj [("total", total); ("items", VArr items)])
  = Ok (match items with first :: _ => or_ first VNull | [] => VNull end).
Proof.
  unfold first_or_null. simpl. destruct items as [|first rest]; [done|].
  simpl length. by destruct (Z.eqb_spec (Z.of_nat (S (length rest))) 0); [lia|].
Qed.

Lemma toCategories_entities collection data :
  toCategories collection = Ok data →
  ∃ total categories,
    data = VObj [("total", total); ("items", VArr categories)] ∧
    Forall (λ category, category = VNull ∨ CategoryEntity category) categories.
Proof.
  unfold toCategories. destruct (truthy collection) eqn:Hc; simpl.
  2: { intros [= <-]; eexists _, _; eauto. }
  js_read collection.
  destruct (truthy (read collection "items")) eqn:Hi; simpl.
  - destruct (read collection "items") as [| | | | |raws|]; simpl; try done.
    destruct (mapM_toCategory_pointwise raws) as (categories & -> & Hcs). simpl.
    intros [= <-]. eexists _, _. split; [done|].
    clear -Hcs. induction Hcs as [|raw category ? ? Hc]; constructor; [|done].
    destruct (truthy raw); auto.
  - intros [= <-]. eexists _, _. eauto.
Qed.

Lemma mapM_toArticle_entities raws articles :
  mapM toArticle raws = Ok articles →
  Forall (λ article, article = VNull ∨ has article "id" = true) articles.
Proof.
  intros Hmap. apply mapM_Ok in Hmap.
  induction Hmap as [|raw article ? ? Ha]; constructor; [|done].
  destruct (truthy raw) eqn:Hraw.
  - destruct (nullish (read raw "fields")) eqn:Hf.
    + by rewrite toArticle_nullish_fields in Ha.
    + destruct (toArticle_closed raw Hraw Hf) as (c & i & _ & _ & Hclosed).
      rewrite Hclosed in Ha. injection Ha as <-. by right.
  - rewrite toArticle_falsy in Ha by done. injection Ha as <-. by left.
Qed.

Lemma toArticles_entities collection data :
  toArticles collection = Ok data →
  ∃ total articles,
    data = VObj [("total", total); ("items", VArr articles)] ∧
    Forall (λ article, article = VNull ∨ has article "id" = true) articles.
Proof.
  unfold toArticles. destruct (truthy collection) eqn:Hc; simpl.
  2: { intros [= <-]; eexists _, _; eauto. }
  js_read collection.
  destruct (truthy (read collection "items")) eqn:Hi; simpl.
  - destruct (read collection "items") as [| | | | |raws|]; simpl; try done.
    destruct (mapM toArticle raws) as [articles|] eqn:Hmap; simpl; [|done].
    intros [= <-]. eexists _, _. split; [done|].
    by eapply mapM_toArticle_entities.
  - intros [= <-]. eexists _, _. eauto.
Qed.

(** X18.  A single-item lookup that resolves, resolves to [null] or to an
    entity, never to [undefined] or to another falsy value: [category] to a
    fully formed [CategoryEntity], [article] to an object that carries
    [id]. *)
Theorem item_lookup_result (filter : value)
    (upstream : string → gmap string value → result value) (v : value) :
  (run upstream (category filter) = Ok v → v = VNull ∨ CategoryEntity v) ∧
  (run upstream (article filter) = Ok v → v = VNull ∨ has v "id" = true).
Proof.
  split.
  - destruct (category_cases filter) as [->|[query ->]]; [done|].
    rewrite run_then_, run_categories.
    destruct (upstream _ _) as [raw|]; simpl; [|done].
    destruct (toCategories raw) as [data|] eqn:Hdata; simpl; [|done].
    destruct (toCategories_entities raw data Hdata)
      as (total & categories & -> & Hcs).
    rewrite first_or_null_items. intros [= <-].
    destruct Hcs as [|first rest [->|Hfirst] _]; auto.
    right. by destruct Hfirst.
  - destruct (article_cases filter) as [->|[query ->]]; [done|].
    rewrite run_then_, run_articles.
    destruct (upstream _ _) as [raw|]; simpl; [|done].
    destruct (toArticles raw) as [data|] eqn:Hdata; simpl; [|done].
    destruct (toArticles_entities raw data Hdata)
      as (total & articles & -> & Has).
    rewrite first_or_null_items. intros [= <-].
    destruct Has as [|first rest [->|Hfirst] _]; auto.
    right. by destruct first.
Qed.

Lemma item_lookup_result_witness :
  VNull = VNull ∨ CategoryEntity VNull.
Proof.
  apply (item_lookup_result (VObj [("slug", VStr "x")])
           (λ _ _, Ok (VObj [("items", VArr [VNum 0])])) VNull).
  reflexivity.
Defined.

(** X19.  For a filter that passes the guard and an answer whose first item
    is present, [category] resolves to the normal form of that first item,
    whatever follows it; [article] does so when every item of the answer
    can be normalized, and rejects with a [TypeError] when any of them, not
    only the first, lacks its [fields]. *)
Theorem item_lookup_first (filter : value)
    (upstream : string → gmap string value → result value)
    (rprops : list (string * value)) (first : value) (rest : list value) :
  invalid_item_filter filter = Ok false →
  (∀ contentType query, upstream contentType query = Ok (VObj rprops)) →
  own "items" rprops = Some (VArr (first :: rest)) →
  truthy first = true →
  (∃ entity,
     toCategory first = Ok entity ∧
     run upstream (category filter) = Ok entity) ∧
  (Forall (λ raw, ∃ entity, toArticle raw = Ok entity) (first :: rest) →
   ∃ entity,
     toArticle first = Ok entity ∧
     run upstream (article filter) = Ok entity) ∧
  (Exists (λ raw, truthy raw = true ∧ nullish (read raw "fields") = true)
     (first :: rest) →
   run upstream (article filter) = Err TypeError).
Proof.
  intros Hv Hup Hitems Hfirst.
  rewrite (category_valid _ Hv), (article_valid _ Hv).
  rewrite !run_then_, run_categories, run_articles, !Hup. simpl.
  rewrite (toCategories_items _ _ Hitems), (toArticles_items _ _ Hitems).
  split; [|split].
  - destruct (mapM_toCategory_pointwise (first :: rest))
      as (categories & Hmap & Hcs).
    rewrite Hmap. simpl. unfold collection_of. rewrite first_or_null_items.
    apply mapM_Ok in Hmap.
    apply Forall2_cons_inv_l in Hmap as (entity & entities & Hc & _ & ->).
    exists entity. split; [done|].
    apply Forall2_cons_1 in Hcs as [Hentity _]. rewrite Hfirst in Hentity.
    by destruct Hentity.
  - intros Hall.
    assert (∃ articles, mapM toArticle (first :: rest) = Ok articles)
      as [articles Hmap].
    { clear -Hall. induction Hall as [|raw raws [article Ha] _ [articles IH]].
      - by exists [].
      - exists (article :: articles). simpl. by rewrite Ha, IH. }
    rewrite Hmap. simpl. unfold collection_of. rewrite first_or_null_items.
    pose proof (mapM_toArticle_entities _ _ Hmap) as Has.
    apply mapM_Ok in Hmap.
    apply Forall2_cons_inv_l in Hmap as (entity & entities & Ha & _ & ->).
    exists entity. split; [done|].
    apply Forall_cons_1 in Has as [[->|Hid] _].
    + destruct (nullish (read first "fields")) eqn:Hf.
      * by rewrite toArticle_nullish_fields in Ha.
      * destruct (toArticle_closed first Hfirst Hf) as (c & i & _ & _ & Hcl).
        by rewrite Hcl in Ha.
    + by destruct entity.
  - intros Hex.
    by rewrite (proj2 (mapM_toArticle_Err (first :: rest) TypeError)
                  (conj eq_refl Hex)).
Qed.

Lemma item_lookup_first_witness :
  let good := VObj [("id", VStr "a"); ("fields", VObj [])] in
  let bad := VObj [("id", VStr "b")] in
  run (λ _ _, Ok (VObj [("items", VArr [good; bad])]))
    (article (VObj [("id", VStr "a")]))
  = Err TypeError.
Proof.
  intros good bad.
  apply (item_lookup_first (VObj [("id", VStr "a")])
           (λ _ _, Ok (VObj [("items", VArr [good; bad])]))
           [("items", VArr [good; bad])] good [bad]).
  - reflexivity.
  - intros; reflexivity.
  - reflexivity.
  - reflexivity.
  - apply Exists_cons_tl, Exists_cons_hd. split; reflexivity.
Defined.
